(** * The product query handler of handlers/product.go

    A shallow embedding of [SanitizeString], [getStringField] and
    [GetProducts], together with the parts of the Go runtime and of the
    collaborators (strconv, the BSON value space, the document store)
    that the handler relies on, followed by the properties of the
    handler.  Calls to [log.Printf] have no bearing on the response and
    are left out, and so is the ten second deadline of the query, whose
    expiry reaches the handler as an error of the find or of the
    decoding. *)

From stdpp Require Import gmap strings list fin_maps.
From Stdlib Require Import ZArith Lia Ascii.

Set Warnings "-register-all".

(** ** Loosely typed documents

    [cursor.All] decodes every record into a [bson.M]; nested documents
    come back as [bson.M] again and nested arrays as [bson.A].  Every
    other BSON type is only ever seen by the handler as "not a string,
    not a document, not an array". *)

Inductive Value : Type :=
  | VString (s : string)
  | VDoc (m : gmap string Value)
  | VArr (l : list Value)
  | VNull
  | VInt (z : Z)
  | VBool (b : bool).

Abbreviation Doc := (gmap string Value).

(** An [interface{}] obtained by indexing a Go map: the zero value
    [nil] when the key is absent. *)
Abbreviation Iface := (option Value).

(** The comma-ok type assertions [x.(bson.M)], [x.(bson.A)] and
    [x.(string)]. *)
Definition asDoc (x : Iface) : option Doc :=
  match x with Some (VDoc m) => Some m | _ => None end.

Definition asArr (x : Iface) : option (list Value) :=
  match x with Some (VArr l) => Some l | _ => None end.

Definition asString (x : Iface) : option string :=
  match x with Some (VString s) => Some s | _ => None end.

(** ** Go slices: a nil slice is not an empty slice *)

Inductive slice (A : Type) : Type :=
  | nil_slice
  | non_nil (l : list A).
Arguments nil_slice {A}.
Arguments non_nil {A} l.

Definition elems {A} (s : slice A) : list A :=
  match s with nil_slice => [] | non_nil l => l end.

Definition len {A} (s : slice A) : nat := length (elems s).

(** [append(s, x)] *)
Definition append {A} (s : slice A) (x : A) : slice A :=
  non_nil (elems s ++ [x]).

(** ** Running code that may panic *)

Inductive outcome (A : Type) : Type :=
  | Ret (a : A)
  | Panic.
Arguments Ret {A} a.
Arguments Panic {A}.

#[global] Instance outcome_bind : MBind outcome := fun A B k m =>
  match m with Ret a => k a | Panic => Panic end.

(** The unchecked type assertion [x.(bson.M)]: a run-time panic when
    the dynamic type of [x] is not [bson.M]. *)
Definition assertDoc (x : Iface) : outcome Doc :=
  match asDoc x with Some m => Ret m | None => Panic end.

(** [for _, x := range l { body }] over a loop state. *)
Fixpoint rangeLoop {A S} (body : S -> A -> outcome S) (l : list A) (s : S)
  : outcome S :=
  match l with
  | [] => Ret s
  | x :: l' => s' ← body s x; rangeLoop body l' s'
  end.

(** ** The response structures *)

Record ProductGroup := { g_Name : string; g_Key : string }.
Record ProductType := { t_Name : string; t_Key : string }.
Record Insurer :=
  { i_ID : string; i_InsurerCode : string; i_InsurerName : string }.
Record Broker := { b_Key : string; b_ChannelName : string }.

Record Product := {
  p_ID : string;
  p_ProductName : string;
  p_ProductGroup : ProductGroup;
  p_ProductType : ProductType;
  p_Insurer : Insurer;
  p_Brokers : slice Broker;
  p_Status : string
}.

(** ** getStringField *)

Definition getStringField (data : Iface) (key : string) : string :=
  match asDoc data with
  | Some dataMap =>
      match asString (dataMap !! key) with
      | Some value => value
      | None => ""
      end
  | None => ""
  end.

(** ** The flattening loops of GetProducts *)

Definition mkBroker (brokerMap : Doc) : Broker :=
  {| b_Key := getStringField (Some (VDoc brokerMap)) "key";
     b_ChannelName := getStringField (Some (VDoc brokerMap)) "channelName" |}.

(** The body of the loop over [brokersData]. *)
Definition brokerStep (brokers : slice Broker) (brokerItem : Value)
  : slice Broker :=
  match asDoc (Some brokerItem) with
  | Some brokerMap => append brokers (mkBroker brokerMap)
  | None => brokers
  end.

(** [brokers := []Broker{}] followed by the guarded loop. *)
Definition collectBrokers (productMap : Doc) : slice Broker :=
  match asArr (productMap !! "brokers") with
  | Some brokersData => fold_left brokerStep brokersData (non_nil [])
  | None => non_nil []
  end.

(** The composite literal [Product{...}]; its operands are evaluated in
    source order, so the assertions on [productType] come before those
    on [insurer]. *)
Definition mkProduct (result productMap : Doc) (brokers : slice Broker)
  : outcome Product :=
  let id := getStringField (Some (VDoc productMap)) "id" in
  let productName := getStringField (Some (VDoc productMap)) "productName" in
  let groupName := getStringField (Some (VDoc result)) "name" in
  let groupKey := getStringField (Some (VDoc result)) "key" in
  pt1 ← assertDoc (result !! "productType");
  let typeName := getStringField (Some (VDoc pt1)) "name" in
  pt2 ← assertDoc (result !! "productType");
  let typeKey := getStringField (Some (VDoc pt2)) "key" in
  in1 ← assertDoc (productMap !! "insurer");
  let insurerID := getStringField (Some (VDoc in1)) "_id" in
  in2 ← assertDoc (productMap !! "insurer");
  let insurerCode := getStringField (Some (VDoc in2)) "insurerCode" in
  in3 ← assertDoc (productMap !! "insurer");
  let insurerName := getStringField (Some (VDoc in3)) "insurerName" in
  Ret {| p_ID := id;
         p_ProductName := productName;
         p_ProductGroup := {| g_Name := groupName; g_Key := groupKey |};
         p_ProductType := {| t_Name := typeName; t_Key := typeKey |};
         p_Insurer := {| i_ID := insurerID;
                         i_InsurerCode := insurerCode;
                         i_InsurerName := insurerName |};
         p_Brokers := brokers;
         p_Status := getStringField (Some (VDoc productMap)) "productStatus" |}.

(** The body of the loop over [productList]. *)
Definition itemStep (result : Doc) (products : slice Product) (item : Value)
  : outcome (slice Product) :=
  match asDoc (Some item) with
  | Some productMap =>
      let brokers := collectBrokers productMap in
      product ← mkProduct result productMap brokers;
      Ret (append products product)
  | None => Ret products
  end.

(** The body of the loop over [results]. *)
Definition resultStep (products : slice Product) (result : Doc)
  : outcome (slice Product) :=
  match asArr (result !! "productList") with
  | Some productList => rangeLoop (itemStep result) productList products
  | None => Ret products
  end.

(** [var products []Product] followed by the loop over [results]. *)
Definition flatten (results : list Doc) : outcome (slice Product) :=
  rangeLoop resultStep results nil_slice.

(** ** SanitizeString

    Go strings are byte strings.  Every member of the character class
    is a single ASCII byte and no ASCII byte occurs inside a multi-byte
    UTF-8 sequence, so the leftmost non-overlapping matches of the
    class are exactly the bytes of the input that belong to it. *)

(** The class of the pattern [[.*+?^${}()|[\]\\]]. *)
Definition metaChars : list ascii :=
  ["."; "*"; "+"; "?"; "^"; "$"; "{"; "}"; "("; ")"; "|"; "["; "]"; "\"]%char.

Definition inClass (c : ascii) : bool := bool_decide (c ∈ metaChars).

(** A replacement template: literal bytes and references to the whole
    match ([$0]).  A backslash has no special meaning in a template. *)
Inductive piece : Type :=
  | Lit (c : ascii)
  | Group0.

Definition expand (template : list piece) (matched : string) : string :=
  foldr (fun p acc =>
           match p with
           | Lit c => String c acc
           | Group0 => matched +:+ acc
           end) "" template.

(** [re.ReplaceAllString(src, repl)] for a pattern that is one
    character class: unmatched bytes are copied, every matched byte is
    replaced by the expansion of the template. *)
Fixpoint ReplaceAllString (class : ascii -> bool) (src : string)
    (repl : list piece) : string :=
  match src with
  | "" => ""
  | String c rest =>
      if class c
      then expand repl (String c "") +:+ ReplaceAllString class rest repl
      else String c (ReplaceAllString class rest repl)
  end.

(** The template [\$0]. *)
Definition escapeTemplate : list piece := [Lit "\"%char; Group0].

Definition SanitizeString (input : string) : string :=
  ReplaceAllString inClass input escapeTemplate.

(** ** Machine integers and strconv.Atoi

    [int] is 64 bits wide on the platforms the service is built for;
    arithmetic on it wraps around silently. *)

Local Open Scope Z_scope.

Definition intSize : Z := 64.
Definition maxInt : Z := 2 ^ (intSize - 1) - 1.
Definition minInt : Z := - 2 ^ (intSize - 1).

Definition wrapInt (z : Z) : Z :=
  (z + 2 ^ (intSize - 1)) `mod` 2 ^ intSize - 2 ^ (intSize - 1).

Definition isDigit (c : ascii) : bool :=
  (48 <=? nat_of_ascii c)%nat && (nat_of_ascii c <=? 57)%nat.

Definition digitVal (c : ascii) : Z := Z.of_nat (nat_of_ascii c) - 48.

(** The magnitude of a run of decimal digits; [None] on any other
    byte (base 10 is explicit, so underscores are rejected too). *)
Fixpoint parseDigits (s : string) (acc : Z) : option Z :=
  match s with
  | "" => Some acc
  | String c rest =>
      if isDigit c then parseDigits rest (acc * 10 + digitVal c) else None
  end.

(** [strconv.Atoi]: an optional sign and at least one digit; a value
    outside [int] is a range error.  [None] stands for [err != nil],
    the only thing the handler looks at in that case. *)
Definition Atoi (s : string) : option Z :=
  match s with
  | "" => None
  | String c rest =>
      let neg := Ascii.eqb c "-" in
      let digits := if neg || Ascii.eqb c "+" then rest else s in
      match digits with
      | "" => None
      | _ =>
          match parseDigits digits 0 with
          | None => None
          | Some un =>
              if neg
              then (if - un <? minInt then None else Some (- un))
              else (if maxInt <? un then None else Some un)
          end
      end
  end.

Local Close Scope Z_scope.

(** ** The request and the document store *)

(** The raw query string values; a key that is absent reads as [""]. *)
Record Ctx := {
  q_param : string;
  q_status : string;
  q_page : string;
  q_limit : string
}.

(** [c.Query(key, defaultValue)]: the default replaces an empty value. *)
Definition Query (raw defaultValue : string) : string :=
  match raw with "" => defaultValue | _ => raw end.

Record FindOptions := {
  opt_Sort : list (string * Z);
  opt_Skip : Z;
  opt_Limit : Z
}.

(** A cursor is what decoding all of it yields: an error text or the
    decoded records. *)
Record Cursor := { All : string + list Doc }.

Record Collection := { Find : Doc -> FindOptions -> string + Cursor }.

(** The store operations a request performs, in order. *)
Inductive Event : Type :=
  | EvFind (filter : Doc) (opts : FindOptions)
  | EvAll
  | EvClose.

(** ** The response *)

(** The anonymous struct passed to [c.JSON]. *)
Record ResponseData := { Data : slice Product }.

Inductive Body : Type :=
  | SendString (s : string)
  | JSON (v : ResponseData).

Record Response := { status : Z; body : Body }.

(** ** GetProducts *)

(** [bson.M{"$regex": pattern, "$options": "i"}] *)
Definition regexMatch (pattern : string) : Value :=
  VDoc (<["$regex" := VString pattern]> (<["$options" := VString "i"]> ∅)).

(** The five alternatives stored under ["$or"]. *)
Definition orClauses (sanitizedParam : string) : Value :=
  VArr [ VDoc {["productType.key" := regexMatch sanitizedParam]};
         VDoc {["key" := regexMatch sanitizedParam]};
         VDoc {["productList.productName" := regexMatch sanitizedParam]};
         VDoc {["productList.insurer.insurerCode" := regexMatch sanitizedParam]};
         VDoc {["productList.brokers.key" := regexMatch sanitizedParam]} ].

(** The effective value of a numeric query parameter (lines 59-66):
    the fallback replaces a value that did not parse or is below 1. *)
Definition atLeastOne (parsed : option Z) (fallback : Z) : Z :=
  match parsed with
  | Some n => if (n <? 1)%Z then fallback else n
  | None => fallback
  end.

Definition effectivePage (c : Ctx) : Z :=
  atLeastOne (Atoi (Query (q_page c) "1")) 1.

Definition effectiveLimit (c : Ctx) : Z :=
  atLeastOne (Atoi (Query (q_limit c) "10")) 10.

(** The options of the find (lines 103-106); the offset is an [int]
    product. *)
Definition findOptions (page limit : Z) : FindOptions :=
  {| opt_Sort := [("productList.productName", 1%Z)];
     opt_Skip := wrapInt (wrapInt (page - 1) * limit);
     opt_Limit := limit |}.

Section Handler.

(** [strings.ToUpper], the Unicode upper-casing of the Go library. *)
Variable ToUpper : string -> string.

(** The filter (lines 72-90). *)
Definition buildFilter (param status : string) : Doc :=
  let filter : Doc := ∅ in
  let filter :=
    if decide (param ≠ "")
    then <["$or" := orClauses (SanitizeString param)]> filter
    else filter in
  let filter :=
    if decide (status ≠ "")
    then <["productList.productStatus" :=
             regexMatch (SanitizeString (ToUpper status))]> filter
    else filter in
  filter.

(** The handler (lines 53-183): the store operations it performs and
    either the response it sends or a panic. *)
Definition GetProducts (ProductCollection : Collection) (c : Ctx)
  : list Event * outcome Response :=
  let param := q_param c in
  let status_ := q_status c in
  let page := effectivePage c in
  let limit := effectiveLimit c in
  let filter := buildFilter param status_ in
  let opts := findOptions page limit in
  match Find ProductCollection filter opts with
  | inl err =>
      ([EvFind filter opts],
       Ret {| status := 500; body := SendString err |})
  | inr cursor =>
      match All cursor with
      | inl err =>
          ([EvFind filter opts; EvAll; EvClose],
           Ret {| status := 500; body := SendString err |})
      | inr results =>
          ([EvFind filter opts; EvAll; EvClose],
           products ← flatten results;
           Ret {| status := 200; body := JSON {| Data := products |} |})
      end
  end.

End Handler.

(** ** JSON encoding of the response *)

Inductive Json : Type :=
  | JNull
  | JStr (s : string)
  | JArr (l : list Json)
  | JObj (fields : list (string * Json)).

(** A nil slice encodes as [null], any other slice as an array. *)
Definition marshalSlice {A} (f : A -> Json) (s : slice A) : Json :=
  match s with
  | nil_slice => JNull
  | non_nil l => JArr (f <$> l)
  end.

Definition marshalBroker (b : Broker) : Json :=
  JObj [("key", JStr (b_Key b)); ("channelName", JStr (b_ChannelName b))].

Definition marshalProduct (p : Product) : Json :=
  JObj [ ("id", JStr (p_ID p));
         ("productName", JStr (p_ProductName p));
         ("productGroup",
           JObj [("name", JStr (g_Name (p_ProductGroup p)));
                 ("key", JStr (g_Key (p_ProductGroup p)))]);
         ("productType",
           JObj [("name", JStr (t_Name (p_ProductType p)));
                 ("key", JStr (t_Key (p_ProductType p)))]);
         ("insurer",
           JObj [("_id", JStr (i_ID (p_Insurer p)));
                 ("insurerCode", JStr (i_InsurerCode (p_Insurer p)));
                 ("insurerName", JStr (i_InsurerName (p_Insurer p)))]);
         ("brokers", marshalSlice marshalBroker (p_Brokers p));
         ("status", JStr (p_Status p)) ].

Definition marshalResponse (v : ResponseData) : Json :=
  JObj [("data", marshalSlice marshalProduct (Data v))].

(** The member of a JSON object stored under a name. *)
Fixpoint field (name : string) (fields : list (string * Json)) : option Json :=
  match fields with
  | [] => None
  | (k, v) :: rest => if decide (k = name) then Some v else field name rest
  end.

Definition member (name : string) (j : Json) : option Json :=
  match j with
  | JObj fields => field name fields
  | _ => None
  end.

(** ** The document store

    The store is reached through the driver and is not part of the
    repository.  The handler only fixes the filter and the options it
    hands over; what a clause means and how a sort specification orders
    the records are left to the store. *)

(** Modelled from the spec: the collaborator is "a queryable collection
    exposing find-with-filter/sort/skip/limit semantics".  A filter is
    the conjunction of its clauses, so the empty filter accepts every
    record. *)
Definition matchesFilter (clause : string -> Value -> Doc -> bool)
    (filter record : Doc) : bool :=
  forallb (fun kv => clause kv.1 kv.2 record) (map_to_list filter).

(** Modelled from the spec: find keeps the records the filter accepts,
    sorts them, skips the offset and returns at most the limit; a
    negative offset is refused. *)
Definition storeCollection
    (clause : string -> Value -> Doc -> bool)
    (sortBy : list (string * Z) -> list Doc -> list Doc)
    (negativeSkip : string)
    (stored : list Doc) : Collection :=
  {| Find := fun filter opts =>
       if (opt_Skip opts <? 0)%Z then inl negativeSkip
       else
         let matched := List.filter (matchesFilter clause filter) stored in
         let sorted := sortBy (opt_Sort opts) matched in
         let skipped := drop (Z.to_nat (opt_Skip opts)) sorted in
         inr {| All := inr (take (Z.to_nat (opt_Limit opts)) skipped) |} |}.

(** ** Vocabulary of the properties *)

(** The well-formed members of a BSON array: those that are documents. *)
Definition documents (l : list Value) : list Doc :=
  omap (fun v => asDoc (Some v)) l.

Definition docWeight (v : Value) : nat :=
  match asDoc (Some v) with Some _ => 1 | None => 0 end.

(** The number of well-formed product-list items of a group document. *)
Definition itemCount (result : Doc) : nat :=
  match asArr (result !! "productList") with
  | Some productList => length (documents productList)
  | None => 0
  end.

Definition totalItems (results : list Doc) : nat :=
  sum_list (itemCount <$> results).

(** The records of a result set that the flattening can turn into
    products without tripping over an unchecked assertion. *)
Definition itemShaped (item : Value) : Prop :=
  match asDoc (Some item) with
  | Some productMap => is_Some (asDoc (productMap !! "insurer"))
  | None => True
  end.

Definition resultShaped (result : Doc) : Prop :=
  match asArr (result !! "productList") with
  | Some productList =>
      (documents productList ≠ [] → is_Some (asDoc (result !! "productType")))
      ∧ Forall itemShaped productList
  | None => True
  end.

(** The request reaches the flattening loops with [results]: the find
    succeeded and so did the decoding of the cursor. *)
Definition decodes (ToUpper : string -> string) (db : Collection) (c : Ctx)
    (results : list Doc) : Prop :=
  ∃ cursor,
    Find db (buildFilter ToUpper (q_param c) (q_status c))
            (findOptions (effectivePage c) (effectiveLimit c)) = inr cursor
    ∧ All cursor = inr results.

(** The error of the whole query, if any: that of the find, else that
    of the decoding. *)
Definition queryError (ToUpper : string -> string) (db : Collection) (c : Ctx)
  : option string :=
  match Find db (buildFilter ToUpper (q_param c) (q_status c))
             (findOptions (effectivePage c) (effectiveLimit c)) with
  | inl err => Some err
  | inr cursor =>
      match All cursor with
      | inl err => Some err
      | inr _ => None
      end
  end.

Definition findCalls (trace : list Event) : nat :=
  length (List.filter (fun e => match e with EvFind _ _ => true | _ => false end)
            trace).

(** The sanitizer as the specification words it: a backslash goes in
    front of every character of the set, nothing else changes. *)
Inductive Escaped : string -> string -> Prop :=
  | Escaped_nil : Escaped "" ""
  | Escaped_meta c s t :
      c ∈ metaChars -> Escaped s t ->
      Escaped (String c s) (String "\"%char (String c t))
  | Escaped_plain c s t :
      c ∉ metaChars -> Escaped s t ->
      Escaped (String c s) (String c t).

(** Membership of a character in a string. *)
Fixpoint occurs (c : ascii) (s : string) : Prop :=
  match s with
  | "" => False
  | String c' rest => c = c' ∨ occurs c rest
  end.

(** A numeric query parameter the handler does not take as given: it
    does not parse as an integer, or it parses to a non-positive one. *)
Definition unusable (raw : string) : Prop :=
  Atoi raw = None ∨ ∃ n, Atoi raw = Some n ∧ (n <= 0)%Z.

(** The sort the handler asks for: product name, ascending. *)
Definition byProductName : list (string * Z) :=
  [("productList.productName", 1%Z)].

(** ** Sample data *)

Module Sample.

Definition upper (s : string) : string := s.

Definition insurer : Value :=
  VDoc (<["_id" := VString "i1"]> (<["insurerCode" := VString "AX"]>
       (<["insurerName" := VString "Axa"]> ∅))).

Definition broker (key : string) : Value :=
  VDoc (<["key" := VString key]> (<["channelName" := VString "web"]> ∅)).

Definition mixedBrokers : list Value :=
  [broker "b1"; VString "junk"; broker "b2"].

Definition entry (id : string) : Doc :=
  <["id" := VString id]> (<["productName" := VString "Alpha"]>
  (<["productStatus" := VString "ACTIVE"]> (<["insurer" := insurer]>
  (<["brokers" := VArr mixedBrokers]> ∅)))).

Definition productType : Value :=
  VDoc (<["name" := VString "Life"]> (<["key" := VString "life"]> ∅)).

(** A group with two well-formed entries and a stray integer. *)
Definition group : Doc :=
  <["name" := VString "Group"]> (<["key" := VString "grp"]>
  (<["productType" := productType]>
  (<["productList" := VArr [VDoc (entry "p1"); VInt 3; VDoc (entry "p2")]]> ∅))).

(** A group without a product list. *)
Definition noList : Doc :=
  <["name" := VString "Empty"]> (<["productType" := productType]> ∅).

(** A group with one entry and no product type. *)
Definition noType : Doc :=
  <["name" := VString "Group"]> (<["productList" := VArr [VDoc (entry "p1")]]> ∅).

(** An entry without an insurer, in an otherwise regular group. *)
Definition noInsurer : Doc :=
  <["productType" := productType]>
  (<["productList" := VArr [VDoc (<["id" := VString "p1"]> ∅)]]> ∅).

(** A store whose find always yields the given records. *)
Definition yielding (results : list Doc) : Collection :=
  {| Find := fun _ _ => inr {| All := inr results |} |}.

Definition failingFind (err : string) : Collection :=
  {| Find := fun _ _ => inl err |}.

Definition failingDecode (err : string) : Collection :=
  {| Find := fun _ _ => inr {| All := inl err |} |}.

Definition request (page limit : string) : Ctx :=
  {| q_param := ""; q_status := ""; q_page := page; q_limit := limit |}.

(** A store that accepts every clause and keeps the stored order. *)
Definition store (stored : list Doc) : Collection :=
  storeCollection (fun _ _ _ => true) (fun _ records => records)
    "skip must be non-negative" stored.

(** A group with no entries at all. *)
Definition emptyList : Doc :=
  <["productType" := productType]> (<["productList" := VArr []]> ∅).

(** An entry that has no brokers field, and a group holding it. *)
Definition bare : Doc :=
  <["id" := VString "p3"]> (<["productName" := VString "Gamma"]>
  (<["insurer" := insurer]> ∅)).

Definition bareGroup : Doc :=
  <["name" := VString "Bare"]> (<["productType" := productType]>
  (<["productList" := VArr [VDoc bare]]> ∅)).

End Sample.

(** ** Vocabulary of the properties of the whole handler *)

(** The product an entry of a group stands for: every field is read
    with [getStringField], the brokers with [collectBrokers]. *)
Definition productOf (result productMap : Doc) : Product :=
  {| p_ID := getStringField (Some (VDoc productMap)) "id";
     p_ProductName := getStringField (Some (VDoc productMap)) "productName";
     p_ProductGroup :=
       {| g_Name := getStringField (Some (VDoc result)) "name";
          g_Key := getStringField (Some (VDoc result)) "key" |};
     p_ProductType :=
       {| t_Name := getStringField (result !! "productType") "name";
          t_Key := getStringField (result !! "productType") "key" |};
     p_Insurer :=
       {| i_ID := getStringField (productMap !! "insurer") "_id";
          i_InsurerCode := getStringField (productMap !! "insurer") "insurerCode";
          i_InsurerName := getStringField (productMap !! "insurer") "insurerName" |};
     p_Brokers := collectBrokers productMap;
     p_Status := getStringField (Some (VDoc productMap)) "productStatus" |}.

(** The products of one group, in the order of its product list, and
    those of a result set, group after group. *)
Definition groupProducts (result : Doc) : list Product :=
  match asArr (result !! "productList") with
  | Some productList => productOf result <$> documents productList
  | None => []
  end.

Definition allProducts (results : list Doc) : list Product :=
  results ≫= groupProducts.

(** The slice a run of appends leaves behind: nil when nothing was
    appended. *)
Definition sliceOf {A} (l : list A) : slice A :=
  match l with [] => nil_slice | _ => non_nil l end.

(** The number of bytes of a string that belong to the class. *)
Fixpoint metaCount (s : string) : nat :=
  match s with
  | "" => 0
  | String c rest => (if inClass c then 1 else 0) + metaCount rest
  end.

(** The text a pattern spells when it consists of plain characters and
    of escaped characters of the class only; [None] for a pattern with
    a character of the class that is not escaped, or with a backslash
    that escapes anything else. *)
Fixpoint literalOf (pattern : string) : option string :=
  match pattern with
  | "" => Some ""
  | String c rest =>
      if Ascii.eqb c "\"
      then match rest with
           | String d rest' =>
               if inClass d then String d <$> literalOf rest' else None
           | "" => None
           end
      else if inClass c then None else String c <$> literalOf rest
  end.

(** The records a find of the modelled store hands back. *)
Definition found (db : Collection) (filter : Doc) (opts : FindOptions)
  : list Doc :=
  match Find db filter opts with
  | inr cursor => match All cursor with inr results => results | inl _ => [] end
  | inl _ => []
  end.

(** A product-list item without the malformed members of its brokers
    array, and a group, then a result set, whose items are all so. *)
Definition cleanEntry (item : Value) : Value :=
  match item with
  | VDoc productMap =>
      match asArr (productMap !! "brokers") with
      | Some brokersData =>
          VDoc (<["brokers" := VArr (VDoc <$> documents brokersData)]> productMap)
      | None => item
      end
  | _ => item
  end.

Definition cleanResult (result : Doc) : Doc :=
  match asArr (result !! "productList") with
  | Some productList =>
      <["productList" := VArr (cleanEntry <$> productList)]> result
  | None => result
  end.

(** * Properties *)

(** ** Loops *)

Section RangeLoop.
Context {A S : Type} (body : S -> A -> outcome S).

Lemma rangeLoop_app l1 l2 s :
  rangeLoop body (l1 ++ l2) s = s' ← rangeLoop body l1 s; rangeLoop body l2 s'.
Proof.
  revert s. induction l1 as [|x l1 IH]; intros s; simpl; [done|].
  destruct (body s x) as [s1|]; simpl; [apply IH | done].
Qed.

(** A property of the loop state kept by every iteration holds when
    the loop ends. *)
Lemma rangeLoop_invariant (P : S -> Prop) l s s' :
  (∀ s0 x s1, P s0 -> body s0 x = Ret s1 -> P s1) ->
  P s -> rangeLoop body l s = Ret s' -> P s'.
Proof.
  intros Hstep. revert s. induction l as [|x l IH]; intros s Hs; simpl.
  - intros [= <-]. exact Hs.
  - destruct (body s x) as [s1|] eqn:Hb; simpl; [|done].
    apply IH. eapply Hstep; eauto.
Qed.

(** A measure of the loop state that every iteration increases by the
    weight of the element it consumed. *)
Lemma rangeLoop_measure (size : S -> nat) (weight : A -> nat) l s s' :
  (∀ s0 x s1, body s0 x = Ret s1 -> size s1 = size s0 + weight x) ->
  rangeLoop body l s = Ret s' ->
  size s' = size s + sum_list (weight <$> l).
Proof.
  intros Hstep. revert s. induction l as [|x l IH]; intros s; simpl.
  - intros [= <-]. lia.
  - destruct (body s x) as [s1|] eqn:Hb; simpl; [|done].
    intros Hl. rewrite (IH _ Hl), (Hstep _ _ _ Hb), <- Nat.add_assoc. done.
Qed.

(** The loop runs to its end when no iteration panics. *)
Lemma rangeLoop_total (P : A -> Prop) l s :
  (∀ s0 x, P x -> ∃ s1, body s0 x = Ret s1) ->
  Forall P l -> ∃ s', rangeLoop body l s = Ret s'.
Proof.
  intros Hstep Hl. revert s. induction Hl as [|x l Hx _ IH]; intros s; simpl.
  - eauto.
  - destruct (Hstep s x Hx) as [s1 ->]. simpl. apply IH.
Qed.
End RangeLoop.

Lemma len_append {A} (s : slice A) x : len (append s x) = Datatypes.S (len s).
Proof. unfold len, append. simpl. rewrite length_app. simpl. lia. Qed.

Lemma documents_cons v l :
  documents (v :: l) =
  match asDoc (Some v) with Some m => m :: documents l | None => documents l end.
Proof. unfold documents. simpl. by destruct (asDoc (Some v)). Qed.

Lemma documents_length l :
  length (documents l) = sum_list (docWeight <$> l).
Proof.
  induction l as [|v l IH]; [done|].
  rewrite documents_cons, fmap_cons. unfold docWeight at 1.
  destruct (asDoc (Some v)); csimpl; rewrite IH; done.
Qed.

(** ** Building one product *)

Lemma mkProduct_Ret result productMap brokers p :
  mkProduct result productMap brokers = Ret p ->
  p_Brokers p = brokers
  ∧ is_Some (asDoc (result !! "productType"))
  ∧ is_Some (asDoc (productMap !! "insurer")).
Proof.
  unfold mkProduct, assertDoc.
  destruct (asDoc (result !! "productType")); simpl; [|done].
  destruct (asDoc (productMap !! "insurer")); simpl; [|done].
  intros [= <-]. split_and!; done.
Qed.

Lemma mkProduct_shaped result productMap brokers :
  is_Some (asDoc (result !! "productType")) ->
  is_Some (asDoc (productMap !! "insurer")) ->
  ∃ p, mkProduct result productMap brokers = Ret p.
Proof.
  intros [pt Hpt] [ins Hins]. unfold mkProduct, assertDoc.
  rewrite Hpt, Hins. simpl. eauto.
Qed.

Lemma mkProduct_no_type result productMap brokers :
  asDoc (result !! "productType") = None ->
  mkProduct result productMap brokers = Panic.
Proof. intros H. unfold mkProduct, assertDoc. by rewrite H. Qed.

Lemma mkProduct_no_insurer result productMap brokers :
  asDoc (productMap !! "insurer") = None ->
  mkProduct result productMap brokers = Panic.
Proof.
  intros H. unfold mkProduct, assertDoc. rewrite H.
  by destruct (asDoc (result !! "productType")).
Qed.

(** ** Counting the flattened products *)

Lemma itemStep_len result products item products' :
  itemStep result products item = Ret products' ->
  len products' = len products + docWeight item.
Proof.
  unfold itemStep, docWeight. destruct (asDoc (Some item)) as [productMap|].
  - destruct (mkProduct _ _ _); simpl; [|done].
    intros [= <-]. rewrite len_append. lia.
  - intros [= <-]. lia.
Qed.

Lemma resultStep_len products result products' :
  resultStep products result = Ret products' ->
  len products' = len products + itemCount result.
Proof.
  unfold resultStep, itemCount.
  destruct (asArr (result !! "productList")) as [productList|].
  - intros H. rewrite documents_length.
    eapply rangeLoop_measure in H; [exact H|]. apply itemStep_len.
  - intros [= <-]. lia.
Qed.

Lemma flatten_len results products :
  flatten results = Ret products -> len products = totalItems results.
Proof.
  unfold flatten, totalItems. intros H.
  eapply rangeLoop_measure in H; [exact H|]. apply resultStep_len.
Qed.

Lemma itemStep_shaped result products item :
  is_Some (asDoc (result !! "productType")) -> itemShaped item ->
  ∃ products', itemStep result products item = Ret products'.
Proof.
  unfold itemStep, itemShaped. intros Hpt.
  destruct (asDoc (Some item)) as [productMap|]; [|eauto].
  intros Hins.
  destruct (mkProduct_shaped result productMap (collectBrokers productMap)
              Hpt Hins) as [p ->].
  simpl. eauto.
Qed.

Lemma itemStep_malformed result products item :
  asDoc (Some item) = None -> itemStep result products item = Ret products.
Proof. intros H. unfold itemStep. by rewrite H. Qed.

Lemma rangeLoop_no_documents result l products :
  documents l = [] -> rangeLoop (itemStep result) l products = Ret products.
Proof.
  induction l as [|v l IH]; [done|].
  rewrite documents_cons. intros H.
  change (rangeLoop (itemStep result) (v :: l) products)
    with (s' ← itemStep result products v; rangeLoop (itemStep result) l s').
  destruct (asDoc (Some v)) eqn:Hv; [discriminate|].
  rewrite (itemStep_malformed _ _ _ Hv). by apply IH.
Qed.

Lemma resultStep_shaped products result :
  resultShaped result -> ∃ products', resultStep products result = Ret products'.
Proof.
  unfold resultShaped, resultStep.
  destruct (asArr (result !! "productList")) as [productList|]; [|eauto].
  intros [Hpt Hitems].
  destruct (documents productList) as [|d ds] eqn:Hd.
  - rewrite rangeLoop_no_documents; eauto.
  - eapply (rangeLoop_total _ itemShaped); [|exact Hitems].
    intros s0 x Hx. apply itemStep_shaped; [|exact Hx]. by apply Hpt.
Qed.

Lemma flatten_shaped results :
  Forall resultShaped results -> ∃ products, flatten results = Ret products.
Proof.
  intros H. unfold flatten.
  eapply (rangeLoop_total _ resultShaped); [|exact H].
  intros s0 x Hx. by apply resultStep_shaped.
Qed.

(** ** The handler after a successful decode *)

Lemma GetProducts_decoded ToUpper db c results :
  decodes ToUpper db c results ->
  (GetProducts ToUpper db c).2 =
    (products ← flatten results;
     Ret {| status := 200; body := JSON {| Data := products |} |}).
Proof.
  intros (cursor & Hfind & Hall). unfold GetProducts.
  rewrite Hfind, Hall. done.
Qed.

Lemma flattened_count_of_decoded ToUpper db c results :
  decodes ToUpper db c results ->
  ∀ resp, (GetProducts ToUpper db c).2 = Ret resp ->
    ∃ products,
      resp = {| status := 200; body := JSON {| Data := products |} |}
      ∧ len products = totalItems results.
Proof.
  intros Hdec resp. rewrite (GetProducts_decoded _ _ _ _ Hdec).
  destruct (flatten results) as [products|] eqn:Hfl; [|done].
  intros [= <-]. exists products. split; [done|]. by apply flatten_len.
Qed.

(** C1. Whenever a decoded result set is turned into a response, the
    response carries one flattened product per well-formed (document)
    item of the product lists of the matched groups: their number is the
    sum over the groups of the items of each group, not the number of
    groups, every group adding exactly its own items.  A result set
    whose records have the nested documents the products are built from
    does produce that response. *)
Theorem flattened_count ToUpper db c results :
  decodes ToUpper db c results ->
  (∀ resp, (GetProducts ToUpper db c).2 = Ret resp ->
     ∃ products,
       resp = {| status := 200; body := JSON {| Data := products |} |}
       ∧ len products = totalItems results)
  ∧ (∀ products result products',
       resultStep products result = Ret products' ->
       len products' = len products + itemCount result)
  ∧ (Forall resultShaped results ->
     ∃ resp, (GetProducts ToUpper db c).2 = Ret resp).
Proof.
  intros Hdec. split_and!.
  - by apply flattened_count_of_decoded.
  - apply resultStep_len.
  - intros Hshape. rewrite (GetProducts_decoded _ _ _ _ Hdec).
    destruct (flatten_shaped _ Hshape) as [products ->]. simpl. eauto.
Qed.

Lemma flattened_count_witness :
  ∃ products,
    (GetProducts Sample.upper
       (Sample.yielding [Sample.group; Sample.noList; Sample.group])
       (Sample.request "" "")).2
    = Ret {| status := 200; body := JSON {| Data := products |} |}
    ∧ len products = 4.
Proof.
  pose (results := [Sample.group; Sample.noList; Sample.group]).
  assert (Hdec : decodes Sample.upper (Sample.yielding results)
                   (Sample.request "" "") results).
  { eexists. split; reflexivity. }
  destruct (flattened_count _ _ _ _ Hdec) as (Hcount & _ & _).
  destruct (Hcount _ eq_refl) as (products & Hresp & Hlen).
  exists products. split.
  - rewrite <- Hresp. reflexivity.
  - rewrite Hlen. vm_compute. reflexivity.
Defined.

(** ** Records of the wrong shape *)

(** A leaf string that is missing, or that is not a string, reads as
    the empty string, and so does any field of something that is not a
    document. *)
Lemma getStringField_default data key :
  (∀ dataMap, asDoc data = Some dataMap -> asString (dataMap !! key) = None) ->
  getStringField data key = "".
Proof.
  intros H. unfold getStringField.
  destruct (asDoc data) as [dataMap|]; [|done]. by rewrite (H dataMap).
Qed.

Lemma itemStep_document result products productMap :
  itemStep result products (VDoc productMap)
  = (product ← mkProduct result productMap (collectBrokers productMap);
     Ret (append products product)).
Proof. reflexivity. Qed.

Lemma rangeLoop_cons {A S} (body : S -> A -> outcome S) x l s :
  rangeLoop body (x :: l) s = s' ← body s x; rangeLoop body l s'.
Proof. reflexivity. Qed.

Lemma resultStep_no_type products result productMap rest :
  asArr (result !! "productList") = Some (VDoc productMap :: rest) ->
  asDoc (result !! "productType") = None ->
  resultStep products result = Panic.
Proof.
  intros Hlist Htype. unfold resultStep. rewrite Hlist.
  by rewrite rangeLoop_cons, itemStep_document, mkProduct_no_type.
Qed.

Lemma resultStep_no_insurer products result productMap rest :
  asArr (result !! "productList") = Some (VDoc productMap :: rest) ->
  asDoc (productMap !! "insurer") = None ->
  resultStep products result = Panic.
Proof.
  intros Hlist Hins. unfold resultStep. rewrite Hlist.
  by rewrite rangeLoop_cons, itemStep_document, mkProduct_no_insurer.
Qed.

(** C2. The flattening does abort on a malformed record: a group with a
    well-formed entry but no productType document, and an entry with no
    insurer document, each make the handler panic instead of producing
    a response. *)
Theorem malformed_nested_document_panics :
  (GetProducts Sample.upper (Sample.yielding [Sample.noType])
     (Sample.request "" "")).2 = Panic
  ∧ (GetProducts Sample.upper (Sample.yielding [Sample.noInsurer])
       (Sample.request "" "")).2 = Panic.
Proof. split; vm_compute; reflexivity. Qed.

(** C7. A matched group whose productList is missing or is not an array
    adds nothing to the products, so the flattening of a result set
    that contains it is the flattening of the result set without it;
    on its own it yields the 200 response, and whatever the handler
    answers for the other groups is what it answers with this group
    among them. *)
Theorem missing_productList_skipped result :
  asArr (result !! "productList") = None ->
  (∀ products, resultStep products result = Ret products)
  ∧ (∀ before after,
       flatten (before ++ result :: after) = flatten (before ++ after))
  ∧ (∀ ToUpper db c,
       decodes ToUpper db c [result] ->
       (GetProducts ToUpper db c).2
       = Ret {| status := 200; body := JSON {| Data := nil_slice |} |})
  ∧ (∀ ToUpper db db' c before after,
       decodes ToUpper db c (before ++ result :: after) ->
       decodes ToUpper db' c (before ++ after) ->
       (GetProducts ToUpper db c).2 = (GetProducts ToUpper db' c).2).
Proof.
  intros Hlist.
  assert (Hstep : ∀ products, resultStep products result = Ret products).
  { intros products. unfold resultStep. by rewrite Hlist. }
  assert (Hflat : ∀ before after,
             flatten (before ++ result :: after) = flatten (before ++ after)).
  { intros before after. unfold flatten. rewrite !rangeLoop_app.
    destruct (rangeLoop resultStep before nil_slice) as [s|]; [|done].
    simpl. by rewrite Hstep. }
  split_and!; [done | done | |].
  - intros ToUpper db c Hdec. rewrite (GetProducts_decoded _ _ _ _ Hdec).
    unfold flatten. simpl. by rewrite Hstep.
  - intros ToUpper db db' c before after Hdec Hdec'.
    rewrite (GetProducts_decoded _ _ _ _ Hdec),
            (GetProducts_decoded _ _ _ _ Hdec').
    by rewrite Hflat.
Qed.

Lemma missing_productList_skipped_witness :
  (GetProducts Sample.upper (Sample.yielding [Sample.noList])
     (Sample.request "" "")).2
  = Ret {| status := 200; body := JSON {| Data := nil_slice |} |}
  ∧ flatten [Sample.group; Sample.noList; Sample.group]
    = flatten [Sample.group; Sample.group].
Proof.
  assert (Hlist : asArr (Sample.noList !! "productList") = None)
    by (vm_compute; reflexivity).
  destruct (missing_productList_skipped Sample.noList Hlist)
    as (_ & Hflat & Hone & _).
  split.
  - apply Hone. eexists. split; reflexivity.
  - exact (Hflat [Sample.group] [Sample.group]).
Defined.

(** ** Brokers *)

Lemma brokerStep_fold brokersData acc :
  fold_left brokerStep brokersData (non_nil acc)
  = non_nil (acc ++ (mkBroker <$> documents brokersData)).
Proof.
  revert acc. induction brokersData as [|v l IH]; intros acc.
  - simpl. by rewrite app_nil_r.
  - rewrite documents_cons. simpl fold_left. unfold brokerStep at 2.
    destruct (asDoc (Some v)) as [brokerMap|].
    + unfold append. simpl elems. rewrite IH, fmap_cons, <- app_assoc. done.
    + apply IH.
Qed.

Lemma collectBrokers_array productMap brokersData :
  asArr (productMap !! "brokers") = Some brokersData ->
  collectBrokers productMap = non_nil (mkBroker <$> documents brokersData).
Proof.
  intros H. unfold collectBrokers. rewrite H. apply brokerStep_fold.
Qed.

Lemma collectBrokers_non_nil productMap :
  ∃ brokers, collectBrokers productMap = non_nil brokers.
Proof.
  unfold collectBrokers.
  destruct (asArr (productMap !! "brokers")) as [brokersData|]; [|eauto].
  rewrite brokerStep_fold. eauto.
Qed.

Lemma documents_VDoc (ds : list Doc) : documents (VDoc <$> ds) = ds.
Proof.
  induction ds as [|d ds IH]; [done|].
  rewrite fmap_cons, documents_cons. simpl. by rewrite IH.
Qed.

Lemma mkProduct_brokers_field result productMap brokersData brokers :
  mkProduct result (<["brokers" := brokersData]> productMap) brokers
  = mkProduct result productMap brokers.
Proof.
  unfold mkProduct, getStringField. simpl asDoc.
  rewrite !lookup_insert_ne by done. reflexivity.
Qed.


(** ** Nil and empty slices in the response *)

Lemma itemStep_brokers result products item products' :
  Forall (fun p => ∃ bl, p_Brokers p = non_nil bl) (elems products) ->
  itemStep result products item = Ret products' ->
  Forall (fun p => ∃ bl, p_Brokers p = non_nil bl) (elems products').
Proof.
  intros Hall. unfold itemStep.
  destruct (asDoc (Some item)) as [productMap|]; [|by intros [= <-]].
  destruct (mkProduct _ _ _) as [product|] eqn:Hp; simpl; [|done].
  intros [= <-]. simpl. apply Forall_app. split; [done|].
  apply Forall_singleton.
  destruct (mkProduct_Ret _ _ _ _ Hp) as (-> & _ & _).
  apply collectBrokers_non_nil.
Qed.

Lemma itemStep_nil_or_filled result products item products' :
  products = nil_slice ∨ elems products ≠ [] ->
  itemStep result products item = Ret products' ->
  products' = nil_slice ∨ elems products' ≠ [].
Proof.
  intros Hinv. unfold itemStep.
  destruct (asDoc (Some item)) as [productMap|]; [|by intros [= <-]].
  destruct (mkProduct _ _ _) as [product|]; simpl; [|done].
  intros [= <-]. right. simpl. by destruct (elems products).
Qed.

Lemma resultStep_invariant (P : slice Product -> Prop) :
  (∀ result products item products',
     P products -> itemStep result products item = Ret products' ->
     P products') ->
  ∀ products result products',
    P products -> resultStep products result = Ret products' -> P products'.
Proof.
  intros Hitem products result products' HP. unfold resultStep.
  destruct (asArr (result !! "productList")) as [productList|].
  - intros H. eapply rangeLoop_invariant in H; eauto.
  - by intros [= <-].
Qed.

Lemma flatten_invariant (P : slice Product -> Prop) results products :
  (∀ result products item products',
     P products -> itemStep result products item = Ret products' ->
     P products') ->
  P nil_slice -> flatten results = Ret products -> P products.
Proof.
  intros Hitem Hnil H. unfold flatten in H.
  eapply rangeLoop_invariant in H; eauto.
  intros s0 x s1. by apply resultStep_invariant.
Qed.


(** ** The sanitizer *)

Lemma inClass_true c : inClass c = true ↔ c ∈ metaChars.
Proof. unfold inClass. apply bool_decide_eq_true. Qed.

Lemma SanitizeString_meta c s :
  c ∈ metaChars ->
  SanitizeString (String c s) = String "\" (String c (SanitizeString s)).
Proof.
  intros Hc. apply inClass_true in Hc.
  unfold SanitizeString. simpl. by rewrite Hc.
Qed.

Lemma SanitizeString_plain c s :
  c ∉ metaChars -> SanitizeString (String c s) = String c (SanitizeString s).
Proof.
  intros Hc. unfold SanitizeString. simpl.
  destruct (inClass c) eqn:E; [|done]. by apply inClass_true in E.
Qed.

Lemma SanitizeString_Escaped input : Escaped input (SanitizeString input).
Proof.
  induction input as [|c s IH]; [constructor|].
  destruct (decide (c ∈ metaChars)) as [Hc|Hc].
  - rewrite SanitizeString_meta by done. by constructor.
  - rewrite SanitizeString_plain by done. by constructor.
Qed.

Lemma Escaped_SanitizeString input output :
  Escaped input output -> output = SanitizeString input.
Proof.
  induction 1 as [|c s t Hc _ IH|c s t Hc _ IH]; [done| |].
  - rewrite SanitizeString_meta by done. by rewrite IH.
  - rewrite SanitizeString_plain by done. by rewrite IH.
Qed.

Lemma SanitizeString_verbatim input :
  (∀ c, c ∈ metaChars -> ¬ occurs c input) -> SanitizeString input = input.
Proof.
  induction input as [|c s IH]; [done|]. intros Hfree.
  rewrite SanitizeString_plain.
  - rewrite IH; [done|]. intros c' Hc' Hocc. apply (Hfree c' Hc'). by right.
  - intros Hc. apply (Hfree c Hc). by left.
Qed.

(** C3. The output of the sanitizer is the input with a backslash put
    immediately before each character of the set and nothing else
    changed, and it is the only string of that form; an input without
    any of these characters comes back verbatim. *)
Theorem sanitizer_escapes input :
  Escaped input (SanitizeString input)
  ∧ (∀ output, Escaped input output -> output = SanitizeString input)
  ∧ ((∀ c, c ∈ metaChars -> ¬ occurs c input) -> SanitizeString input = input).
Proof.
  split_and!.
  - apply SanitizeString_Escaped.
  - apply Escaped_SanitizeString.
  - apply SanitizeString_verbatim.
Qed.

Lemma sanitizer_escapes_witness :
  SanitizeString "Health" = "Health"
  ∧ Escaped "a.b\[c]" "a\.b\\\[c\]".
Proof.
  split.
  - destruct (sanitizer_escapes "Health") as (_ & _ & Hverbatim).
    apply Hverbatim. intros c Hc Hocc. simpl in Hocc.
    revert Hc. unfold metaChars. rewrite !elem_of_cons, elem_of_nil.
    intuition (subst; discriminate).
  - destruct (sanitizer_escapes "a.b\[c]") as (Hesc & _ & _). exact Hesc.
Defined.

(** ** Page and limit *)

Lemma Query_given raw defaultValue :
  raw ≠ "" -> Query raw defaultValue = raw.
Proof. by destruct raw. Qed.

Lemma atLeastOne_fallback parsed fallback :
  parsed = None ∨ (∃ n, parsed = Some n ∧ (n <= 0)%Z) ->
  atLeastOne parsed fallback = fallback.
Proof.
  intros [->|(n & -> & Hn)]; [done|]. unfold atLeastOne.
  destruct (Z.ltb_spec n 1); [done | lia].
Qed.

Lemma digitVal_range c : isDigit c = true -> (0 <= digitVal c <= 9)%Z.
Proof.
  unfold isDigit, digitVal. rewrite andb_true_iff, !Nat.leb_le. lia.
Qed.

Lemma parseDigits_nonneg s acc un :
  parseDigits s acc = Some un -> (0 <= acc)%Z -> (0 <= un)%Z.
Proof.
  revert acc. induction s as [|c s IH]; intros acc; simpl.
  - intros [= <-]. done.
  - destruct (isDigit c) eqn:Hc; [|done]. intros H Hacc.
    apply (IH _ H). pose proof (digitVal_range c Hc). lia.
Qed.

Lemma Atoi_range s n : Atoi s = Some n -> (minInt <= n <= maxInt)%Z.
Proof.
  unfold Atoi. destruct s as [|c rest]; [done|].
  destruct (if Ascii.eqb c "-" || Ascii.eqb c "+" then rest else String c rest)
    as [|d ds]; [done|].
  destruct (parseDigits (String d ds) 0) as [un|] eqn:Hp; [|done].
  pose proof (parseDigits_nonneg _ _ _ Hp ltac:(done)) as Hun.
  assert (minInt < 0 < maxInt)%Z by (by vm_compute).
  destruct (Ascii.eqb c "-").
  - destruct (Z.ltb_spec (- un) minInt); [done|]. intros [= <-]. lia.
  - destruct (Z.ltb_spec maxInt un); [done|]. intros [= <-]. lia.
Qed.

Lemma atLeastOne_range s fallback :
  (1 <= fallback <= maxInt)%Z ->
  (1 <= atLeastOne (Atoi s) fallback <= maxInt)%Z.
Proof.
  intros Hf. unfold atLeastOne. destruct (Atoi s) as [n|] eqn:Hs; [|done].
  apply Atoi_range in Hs. destruct (Z.ltb_spec n 1); [done | lia].
Qed.

Lemma effectivePage_range c : (1 <= effectivePage c <= maxInt)%Z.
Proof. apply atLeastOne_range. by vm_compute. Qed.

Lemma effectiveLimit_range c : (1 <= effectiveLimit c <= maxInt)%Z.
Proof. apply atLeastOne_range. by vm_compute. Qed.

(** C5. A page parameter that does not parse as an integer, or that
    parses to a non-positive one, gives the effective page 1; such a
    limit parameter gives the effective limit 10. *)
Theorem unusable_page_and_limit c :
  (unusable (q_page c) -> effectivePage c = 1%Z)
  ∧ (unusable (q_limit c) -> effectiveLimit c = 10%Z).
Proof.
  unfold effectivePage, effectiveLimit. split; intros Hraw.
  - destruct (decide (q_page c = "")) as [->|Hne]; [done|].
    rewrite Query_given by done. by apply atLeastOne_fallback.
  - destruct (decide (q_limit c = "")) as [->|Hne]; [done|].
    rewrite Query_given by done. by apply atLeastOne_fallback.
Qed.

Lemma unusable_page_and_limit_witness :
  effectivePage (Sample.request "0" "abc") = 1%Z
  ∧ effectiveLimit (Sample.request "0" "abc") = 10%Z
  ∧ effectivePage (Sample.request "-3" "0") = 1%Z
  ∧ effectiveLimit (Sample.request "-3" "0") = 10%Z
  ∧ effectivePage (Sample.request "abc" "-3") = 1%Z
  ∧ effectiveLimit (Sample.request "abc" "-3") = 10%Z.
Proof.
  assert (Hzero : unusable "0") by (right; exists 0%Z; by vm_compute).
  assert (Hneg : unusable "-3") by (right; exists (-3)%Z; by vm_compute).
  assert (Habc : unusable "abc") by (left; by vm_compute).
  destruct (unusable_page_and_limit (Sample.request "0" "abc")) as [P1 L1].
  destruct (unusable_page_and_limit (Sample.request "-3" "0")) as [P2 L2].
  destruct (unusable_page_and_limit (Sample.request "abc" "-3")) as [P3 L3].
  split_and!;
    [apply P1 | apply L1 | apply P2 | apply L2 | apply P3 | apply L3];
    assumption.
Defined.

(** ** The filter *)

Lemma buildFilter_param ToUpper param status_ :
  param ≠ "" ->
  buildFilter ToUpper param status_ !! "$or"
  = Some (orClauses (SanitizeString param)).
Proof.
  intros Hp. unfold buildFilter.
  destruct (decide (param ≠ "")); [|done].
  destruct (decide (status_ ≠ "")).
  - rewrite lookup_insert_ne by done. by rewrite lookup_insert_eq.
  - by rewrite lookup_insert_eq.
Qed.

Lemma buildFilter_status ToUpper param status_ :
  status_ ≠ "" ->
  buildFilter ToUpper param status_ !! "productList.productStatus"
  = Some (regexMatch (SanitizeString (ToUpper status_))).
Proof.
  intros Hs. unfold buildFilter.
  destruct (decide (status_ ≠ "")); [|done]. by rewrite lookup_insert_eq.
Qed.

(** C8. With an empty param and an empty status the filter handed to
    the store is the empty document: it has no $or clause and no
    productList.productStatus clause, and it accepts every record. *)
Theorem empty_filter ToUpper db c :
  q_param c = "" -> q_status c = "" ->
  let filter := buildFilter ToUpper (q_param c) (q_status c) in
  filter = ∅
  ∧ filter !! "$or" = None
  ∧ filter !! "productList.productStatus" = None
  ∧ (∀ clause record, matchesFilter clause filter record = true)
  ∧ ∃ opts, head (GetProducts ToUpper db c).1 = Some (EvFind ∅ opts).
Proof.
  intros Hp Hs filter.
  assert (Hempty : filter = ∅).
  { unfold filter, buildFilter. rewrite Hp, Hs. done. }
  split_and!; [done | by rewrite Hempty | by rewrite Hempty | |].
  - intros clause record. rewrite Hempty. unfold matchesFilter.
    by rewrite map_to_list_empty.
  - exists (findOptions (effectivePage c) (effectiveLimit c)).
    unfold GetProducts. fold filter. rewrite Hempty.
    destruct (Find db ∅ _) as [err|cursor]; [done|].
    by destruct (All cursor).
Qed.

Lemma empty_filter_witness :
  buildFilter Sample.upper "" "" = ∅
  ∧ matchesFilter (fun _ _ _ => false) (buildFilter Sample.upper "" "")
      Sample.group = true.
Proof.
  destruct (empty_filter Sample.upper (Sample.yielding [])
              (Sample.request "2" "5") eq_refl eq_refl)
    as (Hempty & _ & _ & Hall & _).
  split; [exact Hempty | apply Hall].
Defined.

(** ** Errors of the whole query *)

(** X16. The handler calls find once, whatever happens next.  When the
    find or the decoding of the cursor fails, the response is status
    500 with the error text as its plain body, not a JSON document with
    a data field; a response that is not the 200 JSON document comes
    from such a failure only.  When both succeed the outcome is that
    of the flattening of the decoded records, the 200 JSON document
    with the flattened products or a panic, and a panic happens in that
    case only. *)
Theorem whole_query_errors ToUpper db c :
  findCalls (GetProducts ToUpper db c).1 = 1
  ∧ (∀ err, queryError ToUpper db c = Some err ->
       (GetProducts ToUpper db c).2
       = Ret {| status := 500; body := SendString err |})
  ∧ (∀ resp, (GetProducts ToUpper db c).2 = Ret resp ->
       match body resp with
       | SendString err =>
           status resp = 500%Z ∧ queryError ToUpper db c = Some err
       | JSON _ =>
           status resp = 200%Z ∧ queryError ToUpper db c = None
       end)
  ∧ (∀ results, decodes ToUpper db c results ->
       queryError ToUpper db c = None
       ∧ (GetProducts ToUpper db c).2
         = (products ← flatten results;
            Ret {| status := 200; body := JSON {| Data := products |} |}))
  ∧ ((GetProducts ToUpper db c).2 = Panic ->
     queryError ToUpper db c = None
     ∧ ∃ results, decodes ToUpper db c results ∧ flatten results = Panic).
Proof.
  unfold GetProducts, queryError, decodes.
  destruct (Find db _ _) as [err|cursor]; simpl.
  - split_and!;
      [done | by intros ? [= <-] | by intros ? [= <-]
       | by intros ? (? & ? & ?) | done].
  - destruct (All cursor) as [err|results] eqn:Hall; simpl.
    + split_and!; [done | by intros ? [= <-] | by intros ? [= <-] | | done].
      intros results (cursor' & [= <-] & Hall'). congruence.
    + split_and!; [done | done | | |].
      * intros resp. destruct (flatten results); simpl; [|done].
        by intros [= <-].
      * intros results' (cursor' & [= <-] & Hall').
        rewrite Hall in Hall'. by injection Hall' as <-.
      * destruct (flatten results) eqn:Hfl; simpl; [done|].
        intros _. split; [done|]. exists results. split; [|done].
        exists cursor. done.
Qed.

Lemma whole_query_errors_witness :
  (GetProducts Sample.upper (Sample.failingFind "server selection timeout")
     (Sample.request "1" "10")).2
  = Ret {| status := 500; body := SendString "server selection timeout" |}
  ∧ (GetProducts Sample.upper (Sample.failingDecode "cursor is closed")
       (Sample.request "1" "10")).2
    = Ret {| status := 500; body := SendString "cursor is closed" |}.
Proof.
  split.
  - destruct (whole_query_errors Sample.upper
                (Sample.failingFind "server selection timeout")
                (Sample.request "1" "10")) as (_ & Herr & _).
    apply Herr. reflexivity.
  - destruct (whole_query_errors Sample.upper
                (Sample.failingDecode "cursor is closed")
                (Sample.request "1" "10")) as (_ & Herr & _).
    apply Herr. reflexivity.
Defined.

(** ** Pagination *)

Lemma wrapInt_id z : (minInt <= z <= maxInt)%Z -> wrapInt z = z.
Proof.
  unfold wrapInt, minInt, maxInt, intSize. intros Hz.
  rewrite Z.mod_small; lia.
Qed.

Lemma findOptions_exact page limit :
  (1 <= page <= maxInt)%Z -> (1 <= limit)%Z ->
  ((page - 1) * limit <= maxInt)%Z ->
  findOptions page limit
  = {| opt_Sort := byProductName;
       opt_Skip := (page - 1) * limit;
       opt_Limit := limit |}.
Proof.
  intros Hp Hl Hfit. unfold findOptions, byProductName.
  assert (minInt < 0)%Z by (by vm_compute).
  rewrite (wrapInt_id (page - 1)) by lia.
  rewrite wrapInt_id by nia. done.
Qed.

(** The offset is computed in machine integers: page 2^62+1 with limit
    4 makes (page-1)*limit wrap around to 0, so the query skips nothing
    and the store hands back its first records. *)
Lemma skip_wraps_around :
  let c := Sample.request "4611686018427387905" "4" in
  effectivePage c = 4611686018427387905%Z
  ∧ effectiveLimit c = 4%Z
  ∧ opt_Skip (findOptions (effectivePage c) (effectiveLimit c)) = 0%Z
  ∧ opt_Skip (findOptions (effectivePage c) (effectiveLimit c))
    ≠ ((effectivePage c - 1) * effectiveLimit c)%Z
  ∧ decodes Sample.upper (Sample.store [Sample.group; Sample.noList]) c
      [Sample.group; Sample.noList].
Proof.
  split_and!; try (vm_compute; reflexivity).
  - vm_compute. discriminate.
  - eexists. split; vm_compute; reflexivity.
Qed.

(** C4. When the offset (p-1)*l of the effective page p and
    limit l fits the machine integer, the query asks for the records
    sorted by product name ascending, skips exactly (p-1)*l of them and
    returns at most l; skip and limit count group documents, so the
    response has as many entries as the returned groups have
    well-formed items, which need not be l. *)
Theorem paginated_query ToUpper clause sortBy negativeSkip stored c :
  let p := effectivePage c in
  let l := effectiveLimit c in
  ((p - 1) * l <= maxInt)%Z ->
  let db := storeCollection clause sortBy negativeSkip stored in
  let sorted :=
    sortBy byProductName
      (List.filter
         (matchesFilter clause (buildFilter ToUpper (q_param c) (q_status c)))
         stored) in
  let groups := take (Z.to_nat l) (drop (Z.to_nat ((p - 1) * l)) sorted) in
  findOptions p l
  = {| opt_Sort := byProductName; opt_Skip := (p - 1) * l; opt_Limit := l |}
  ∧ decodes ToUpper db c groups
  ∧ length groups <= Z.to_nat l
  ∧ (∀ resp, (GetProducts ToUpper db c).2 = Ret resp ->
       ∃ products,
         resp = {| status := 200; body := JSON {| Data := products |} |}
         ∧ len products = totalItems groups).
Proof.
  intros p l Hfit db sorted groups.
  pose proof (effectivePage_range c) as Hp.
  pose proof (effectiveLimit_range c) as Hl.
  assert (Hopts : findOptions p l
                  = {| opt_Sort := byProductName; opt_Skip := (p - 1) * l;
                       opt_Limit := l |}).
  { apply findOptions_exact; fold p l; lia. }
  assert (Hdec : decodes ToUpper db c groups).
  { unfold decodes. fold p l. rewrite Hopts. unfold db, storeCollection.
    simpl. destruct (Z.ltb_spec ((p - 1) * l) 0); [nia|].
    eexists. split; reflexivity. }
  split_and!; [done | done | |].
  - unfold groups. rewrite length_take. lia.
  - intros resp Hresp.
    destruct (flattened_count_of_decoded _ _ _ _ Hdec resp Hresp)
      as (products & -> & Hlen).
    eauto.
Qed.

Lemma paginated_query_witness :
  let stored := [Sample.group; Sample.emptyList] in
  (∃ products,
     (GetProducts Sample.upper (Sample.store stored)
        (Sample.request "1" "1")).2
     = Ret {| status := 200; body := JSON {| Data := products |} |}
     ∧ effectiveLimit (Sample.request "1" "1") = 1%Z
     ∧ len products = 2)
  ∧ (∃ products,
       (GetProducts Sample.upper (Sample.store stored)
          (Sample.request "2" "1")).2
       = Ret {| status := 200; body := JSON {| Data := products |} |}
       ∧ effectiveLimit (Sample.request "2" "1") = 1%Z
       ∧ len products = 0).
Proof.
  intros stored. split.
  - assert (Hfit : ((effectivePage (Sample.request "1" "1") - 1)
                    * effectiveLimit (Sample.request "1" "1") <= maxInt)%Z)
      by (vm_compute; discriminate).
    destruct (paginated_query Sample.upper (fun _ _ _ => true)
                (fun _ records => records) "skip must be non-negative"
                stored (Sample.request "1" "1") Hfit)
      as (_ & _ & _ & Hresp).
    destruct (Hresp _ eq_refl) as (products & Heq & Hlen).
    exists products. split_and!.
    + rewrite <- Heq. reflexivity.
    + vm_compute. reflexivity.
    + rewrite Hlen. vm_compute. reflexivity.
  - assert (Hfit : ((effectivePage (Sample.request "2" "1") - 1)
                    * effectiveLimit (Sample.request "2" "1") <= maxInt)%Z)
      by (vm_compute; discriminate).
    destruct (paginated_query Sample.upper (fun _ _ _ => true)
                (fun _ records => records) "skip must be non-negative"
                stored (Sample.request "2" "1") Hfit)
      as (_ & _ & _ & Hresp).
    destruct (Hresp _ eq_refl) as (products & Heq & Hlen).
    exists products. split_and!.
    + rewrite <- Heq. reflexivity.
    + vm_compute. reflexivity.
    + rewrite Hlen. vm_compute. reflexivity.
Defined.


(** * Further properties of the handler *)

(** ** What the flattening computes *)

Lemma getStringField_asDoc x m key :
  asDoc x = Some m ->
  getStringField (Some (VDoc m)) key = getStringField x key.
Proof. intros H. unfold getStringField. by rewrite H. Qed.

Lemma mkProduct_exact result productMap p :
  mkProduct result productMap (collectBrokers productMap) = Ret p ->
  p = productOf result productMap.
Proof.
  unfold mkProduct, assertDoc.
  destruct (asDoc (result !! "productType")) as [pt|] eqn:Hpt; [|done].
  destruct (asDoc (productMap !! "insurer")) as [ins|] eqn:Hins; [|done].
  simpl. intros [= <-]. unfold productOf.
  by rewrite !(getStringField_asDoc _ _ _ Hpt), !(getStringField_asDoc _ _ _ Hins).
Qed.

Lemma itemStep_exact result products item products' :
  itemStep result products item = Ret products' ->
  elems products' = elems products ++ (productOf result <$> documents [item]).
Proof.
  rewrite documents_cons. unfold itemStep.
  destruct (asDoc (Some item)) as [productMap|].
  - destruct (mkProduct _ _ _) as [p|] eqn:Hp; [|done].
    simpl. intros [= <-]. simpl. by rewrite (mkProduct_exact _ _ _ Hp).
  - intros [= <-]. simpl. by rewrite app_nil_r.
Qed.

Lemma documents_app l1 l2 : documents (l1 ++ l2) = documents l1 ++ documents l2.
Proof. unfold documents. apply omap_app. Qed.

Lemma itemLoop_exact result productList products products' :
  rangeLoop (itemStep result) productList products = Ret products' ->
  elems products'
  = elems products ++ (productOf result <$> documents productList).
Proof.
  revert products. induction productList as [|item l IH]; intros products.
  - simpl. intros [= <-]. by rewrite app_nil_r.
  - rewrite rangeLoop_cons.
    destruct (itemStep result products item) as [s1|] eqn:Hstep; [|done].
    simpl. intros Hl.
    rewrite (IH _ Hl), (itemStep_exact _ _ _ _ Hstep), <- app_assoc, <- fmap_app.
    by rewrite <- documents_app.
Qed.

Lemma resultStep_exact products result products' :
  resultStep products result = Ret products' ->
  elems products' = elems products ++ groupProducts result.
Proof.
  unfold resultStep, groupProducts.
  destruct (asArr (result !! "productList")) as [productList|].
  - apply itemLoop_exact.
  - intros [= <-]. by rewrite app_nil_r.
Qed.

Lemma resultLoop_exact results products products' :
  rangeLoop resultStep results products = Ret products' ->
  elems products' = elems products ++ allProducts results.
Proof.
  revert products. induction results as [|result rs IH]; intros products.
  - simpl. intros [= <-]. by rewrite app_nil_r.
  - rewrite rangeLoop_cons.
    destruct (resultStep products result) as [s1|] eqn:Hstep; [|done].
    simpl. intros Hl.
    rewrite (IH _ Hl), (resultStep_exact _ _ _ Hstep), <- app_assoc.
    done.
Qed.

Lemma elems_sliceOf {A} (l : list A) : elems (sliceOf l) = l.
Proof. by destruct l. Qed.

Lemma sliceOf_elems {A} (s : slice A) :
  s = nil_slice ∨ elems s ≠ [] -> sliceOf (elems s) = s.
Proof.
  intros [->|Hne]; [done|]. destruct s as [|l]; [done|].
  simpl in *. by destruct l.
Qed.

Lemma flatten_exact results products :
  flatten results = Ret products -> products = sliceOf (allProducts results).
Proof.
  intros Hfl.
  assert (Hinv : products = nil_slice ∨ elems products ≠ []).
  { apply (flatten_invariant (fun s => s = nil_slice ∨ elems s ≠ []) results);
      [| by left | done].
    intros. eapply itemStep_nil_or_filled; eauto. }
  rewrite <- (sliceOf_elems _ Hinv). f_equal.
  unfold flatten in Hfl. by rewrite (resultLoop_exact _ _ _ Hfl).
Qed.

(** ** When the flattening panics *)

Lemma itemStep_Ret_shaped result products item products' :
  itemStep result products item = Ret products' ->
  itemShaped item
  ∧ (documents [item] ≠ [] -> is_Some (asDoc (result !! "productType"))).
Proof.
  rewrite documents_cons. unfold itemStep, itemShaped.
  destruct (asDoc (Some item)) as [productMap|]; [|done].
  destruct (mkProduct _ _ _) as [p|] eqn:Hp; [|done].
  destruct (mkProduct_Ret _ _ _ _ Hp) as (_ & Hpt & Hins). done.
Qed.

Lemma itemLoop_shaped result productList products products' :
  rangeLoop (itemStep result) productList products = Ret products' ->
  (documents productList ≠ [] -> is_Some (asDoc (result !! "productType")))
  ∧ Forall itemShaped productList.
Proof.
  revert products. induction productList as [|item l IH]; intros products.
  - intros _. split; [done | constructor].
  - rewrite rangeLoop_cons.
    destruct (itemStep result products item) as [s1|] eqn:Hstep; [|done].
    intros Hl. destruct (IH _ Hl) as [Htype Hitems].
    destruct (itemStep_Ret_shaped _ _ _ _ Hstep) as [Hitem Htype1].
    split; [|by constructor].
    change (item :: l) with ([item] ++ l). rewrite documents_app.
    intros Hne. destruct (documents [item]) as [|d ds] eqn:Hd.
    + by apply Htype.
    + by apply Htype1.
Qed.

Lemma resultStep_Ret_shaped products result products' :
  resultStep products result = Ret products' -> resultShaped result.
Proof.
  unfold resultStep, resultShaped.
  destruct (asArr (result !! "productList")) as [productList|]; [|done].
  apply itemLoop_shaped.
Qed.

Lemma flatten_Ret_shaped results products :
  flatten results = Ret products -> Forall resultShaped results.
Proof.
  unfold flatten. generalize (@nil_slice Product).
  induction results as [|result rs IH]; intros acc; [constructor|].
  rewrite rangeLoop_cons.
  destruct (resultStep acc result) as [s1|] eqn:Hstep; [|done].
  simpl. intros Hl. constructor.
  - by eapply resultStep_Ret_shaped.
  - by eapply IH.
Qed.

Lemma flatten_completes results :
  (∃ products, flatten results = Ret products) ↔ Forall resultShaped results.
Proof.
  split.
  - intros [products H]. by eapply flatten_Ret_shaped.
  - apply flatten_shaped.
Qed.

Lemma allProducts_app a b : allProducts (a ++ b) = allProducts a ++ allProducts b.
Proof. unfold allProducts. apply bind_app. Qed.

(** X1. A response to a decoded result set is the 200 document whose
    data are exactly the products of the entries of the matched groups:
    group after group in the order of the result set, inside a group
    in the order of its product list, malformed entries left out. *)
Theorem response_data_exact ToUpper db c results resp :
  decodes ToUpper db c results ->
  (GetProducts ToUpper db c).2 = Ret resp ->
  resp = {| status := 200;
            body := JSON {| Data := sliceOf (allProducts results) |} |}.
Proof.
  intros Hdec. rewrite (GetProducts_decoded _ _ _ _ Hdec).
  destruct (flatten results) as [products|] eqn:Hfl; [|done].
  simpl. intros [= <-]. by rewrite (flatten_exact _ _ Hfl).
Qed.

Lemma response_data_exact_witness :
  (GetProducts Sample.upper (Sample.yielding [Sample.noList; Sample.group])
     (Sample.request "" "")).2
  = Ret {| status := 200;
           body := JSON {| Data := non_nil
                                     [productOf Sample.group (Sample.entry "p1");
                                      productOf Sample.group (Sample.entry "p2")]
                        |} |}.
Proof.
  pose (results := [Sample.noList; Sample.group]).
  assert (Hdec : decodes Sample.upper (Sample.yielding results)
                   (Sample.request "" "") results).
  { eexists. split; reflexivity. }
  assert (Hout : (GetProducts Sample.upper (Sample.yielding results)
                    (Sample.request "" "")).2
                 = Ret {| status := 200;
                          body := JSON {| Data := sliceOf (allProducts results) |} |}).
  { destruct ((GetProducts Sample.upper (Sample.yielding results)
                 (Sample.request "" "")).2) as [resp|] eqn:Hresp.
    - by rewrite (response_data_exact _ _ _ _ _ Hdec Hresp).
    - vm_compute in Hresp. discriminate. }
  subst results. rewrite Hout. vm_compute. reflexivity.
Defined.

(** X2. Once the result set is decoded the handler panics exactly when
    some group has a well-formed entry without having a productType
    document, or has a well-formed entry without an insurer document;
    otherwise it responds. *)
Theorem panics_exactly_when_misshaped ToUpper db c results :
  decodes ToUpper db c results ->
  ((GetProducts ToUpper db c).2 = Panic ↔ ¬ Forall resultShaped results)
  ∧ ((∃ resp, (GetProducts ToUpper db c).2 = Ret resp)
     ↔ Forall resultShaped results).
Proof.
  intros Hdec. rewrite (GetProducts_decoded _ _ _ _ Hdec).
  pose proof (flatten_completes results) as Hiff.
  destruct (flatten results) as [products|]; simpl.
  - assert (Hsh : Forall resultShaped results) by (apply Hiff; eauto).
    split; split; try done; eauto.
  - assert (Hno : ¬ Forall resultShaped results).
    { intros Hsh. apply Hiff in Hsh as [? ?]. done. }
    split; split; try done. by intros [? ?].
Qed.

Lemma panics_exactly_when_misshaped_witness :
  ¬ Forall resultShaped [Sample.group; Sample.noInsurer]
  ∧ Forall resultShaped [Sample.noList; Sample.group].
Proof.
  split.
  - assert (Hdec : decodes Sample.upper
                     (Sample.yielding [Sample.group; Sample.noInsurer])
                     (Sample.request "" "") [Sample.group; Sample.noInsurer]).
    { eexists. split; reflexivity. }
    destruct (panics_exactly_when_misshaped _ _ _ _ Hdec) as [[Hpanic _] _].
    apply Hpanic. vm_compute. reflexivity.
  - assert (Hdec : decodes Sample.upper
                     (Sample.yielding [Sample.noList; Sample.group])
                     (Sample.request "" "") [Sample.noList; Sample.group]).
    { eexists. split; reflexivity. }
    destruct (panics_exactly_when_misshaped _ _ _ _ Hdec) as [_ [Hresp _]].
    apply Hresp. eexists. vm_compute. reflexivity.
Defined.

(** X3. Flattening a result set made of two parts is flattening each
    part and putting the products of the second after those of the
    first; it panics as soon as one part does. *)
Theorem flatten_app a b :
  flatten (a ++ b)
  = (sa ← flatten a; sb ← flatten b; Ret (sliceOf (elems sa ++ elems sb))).
Proof.
  pose proof (flatten_completes (a ++ b)) as Hab.
  pose proof (flatten_completes a) as Ha.
  pose proof (flatten_completes b) as Hb.
  rewrite Forall_app in Hab.
  destruct (flatten (a ++ b)) as [s|] eqn:Hfl.
  - destruct Hab as [[Hsa Hsb] _]; [eauto|].
    apply Ha in Hsa as [sa Hfa]. apply Hb in Hsb as [sb Hfb].
    rewrite Hfa, Hfb. simpl. f_equal.
    rewrite (flatten_exact _ _ Hfl), (flatten_exact _ _ Hfa),
            (flatten_exact _ _ Hfb), !elems_sliceOf.
    by rewrite allProducts_app.
  - destruct (flatten a) as [sa|]; [|done].
    destruct (flatten b) as [sb|]; [|done].
    destruct Hab as [_ Hab]. destruct Hab as [s Hs]; [|done].
    split; [apply Ha | apply Hb]; eauto.
Qed.

Lemma groupProducts_length result : length (groupProducts result) = itemCount result.
Proof.
  unfold groupProducts, itemCount.
  destruct (asArr (result !! "productList")); [|done]. apply length_fmap.
Qed.

Lemma allProducts_length results :
  length (allProducts results) = totalItems results.
Proof.
  unfold allProducts, totalItems. induction results as [|result rs IH]; [done|].
  rewrite bind_cons, length_app, fmap_cons, groupProducts_length, IH. done.
Qed.

(** X4. In the JSON of a response to a decoded result set the data
    member is null when the matched groups have no well-formed entry,
    and otherwise an array with one element per well-formed entry; it
    is never the empty array. *)
Theorem data_is_null_or_filled ToUpper db c results resp :
  decodes ToUpper db c results ->
  (GetProducts ToUpper db c).2 = Ret resp ->
  ∃ v data,
    body resp = JSON v
    ∧ member "data" (marshalResponse v) = Some data
    ∧ (totalItems results = 0 -> data = JNull)
    ∧ (totalItems results ≠ 0 ->
       ∃ l, data = JArr l ∧ length l = totalItems results)
    ∧ data ≠ JArr [].
Proof.
  intros Hdec. rewrite (GetProducts_decoded _ _ _ _ Hdec).
  destruct (flatten results) as [products|] eqn:Hfl; [|done].
  simpl. intros [= <-]. rewrite (flatten_exact _ _ Hfl).
  eexists _, _. split; [reflexivity|]. split; [reflexivity|].
  rewrite <- allProducts_length. simpl.
  destruct (allProducts results) as [|p ps]; simpl.
  - split_and!; done.
  - split_and!; [done | | done].
    intros _. eexists. split; [done|]. simpl. by rewrite length_fmap.
Qed.

Lemma data_is_null_or_filled_witness :
  ∃ v data,
    (GetProducts Sample.upper (Sample.yielding [Sample.noList])
       (Sample.request "" "")).2
    = Ret {| status := 200; body := JSON v |}
    ∧ member "data" (marshalResponse v) = Some data
    ∧ data = JNull.
Proof.
  assert (Hdec : decodes Sample.upper (Sample.yielding [Sample.noList])
                   (Sample.request "" "") [Sample.noList]).
  { eexists. split; reflexivity. }
  destruct (data_is_null_or_filled _ _ _ _ _ Hdec eq_refl)
    as (v & data & Hbody & Hmember & Hnull & _ & _).
  exists v, data. simpl in Hbody. injection Hbody as <-.
  split_and!; [reflexivity | exact Hmember | apply Hnull; reflexivity].
Defined.

Lemma elem_of_documents productMap l :
  productMap ∈ documents l ↔ VDoc productMap ∈ l.
Proof.
  unfold documents. rewrite list_elem_of_omap. split.
  - intros (v & Hv & Hdoc). destruct v; try done. simpl in Hdoc.
    by injection Hdoc as ->.
  - intros Hv. exists (VDoc productMap). done.
Qed.

(** X5. The products of a response are those of the well-formed entries
    of the matched groups and no others: a product is in the data
    exactly when it is the product of a document found in the product
    list of one of the groups, whose name, key and product type it then
    carries. *)
Theorem product_origin ToUpper db c results resp p :
  decodes ToUpper db c results ->
  (GetProducts ToUpper db c).2 = Ret resp ->
  (∃ v, body resp = JSON v ∧ p ∈ elems (Data v))
  ↔ (∃ result productList productMap,
       result ∈ results
       ∧ asArr (result !! "productList") = Some productList
       ∧ VDoc productMap ∈ productList
       ∧ p = productOf result productMap).
Proof.
  intros Hdec. rewrite (GetProducts_decoded _ _ _ _ Hdec).
  destruct (flatten results) as [products|] eqn:Hfl; [|done].
  simpl. intros [= <-]. rewrite (flatten_exact _ _ Hfl).
  simpl. split.
  - intros (v & [= <-] & Hp). simpl in Hp. rewrite elems_sliceOf in Hp.
    unfold allProducts in Hp. apply list_elem_of_bind in Hp as (result & Hp & Hr).
    unfold groupProducts in Hp.
    destruct (asArr (result !! "productList")) as [productList|] eqn:Hl;
      [|by apply elem_of_nil in Hp].
    apply list_elem_of_fmap in Hp as (productMap & -> & Hm).
    apply elem_of_documents in Hm. eauto 10.
  - intros (result & productList & productMap & Hr & Hl & Hm & ->).
    eexists. split; [reflexivity|]. simpl. rewrite elems_sliceOf.
    unfold allProducts. apply list_elem_of_bind. exists result. split; [|done].
    unfold groupProducts. rewrite Hl. apply list_elem_of_fmap.
    exists productMap. split; [done|]. by apply elem_of_documents.
Qed.

Lemma product_origin_witness :
  ∃ v,
    (GetProducts Sample.upper (Sample.yielding [Sample.noList; Sample.group])
       (Sample.request "" "")).2
    = Ret {| status := 200; body := JSON v |}
    ∧ productOf Sample.group (Sample.entry "p2") ∈ elems (Data v).
Proof.
  pose (results := [Sample.noList; Sample.group]).
  assert (Hdec : decodes Sample.upper (Sample.yielding results)
                   (Sample.request "" "") results).
  { eexists. split; reflexivity. }
  destruct (product_origin _ _ _ _ _
              (productOf Sample.group (Sample.entry "p2")) Hdec eq_refl)
    as [_ Hin].
  destruct Hin as (v & Hbody & Hp).
  - exists Sample.group, [VDoc (Sample.entry "p1"); VInt 3; VDoc (Sample.entry "p2")],
      (Sample.entry "p2").
    split_and!; [| reflexivity | | reflexivity].
    + subst results. rewrite !elem_of_cons. right. by left.
    + rewrite !elem_of_cons. right. right. by left.
  - exists v. simpl in Hbody. injection Hbody as <-. split; [reflexivity|].
    exact Hp.
Defined.

(** ** What the handler asks of the store *)

Lemma wrapInt_range z : (minInt <= wrapInt z <= maxInt)%Z.
Proof.
  unfold wrapInt, minInt, maxInt, intSize.
  pose proof (Z.mod_pos_bound (z + 2 ^ (64 - 1)) (2 ^ 64) ltac:(done)).
  lia.
Qed.

(** X6. Whatever the query string, the one find of a request asks for
    the records sorted by product name ascending and for a limit
    between 1 and the largest int, never for zero or a negative number
    of records; the offset it passes is an int, negative when the
    product (page-1)*limit wrapped around to one. *)
Theorem find_request_bounds ToUpper db c :
  ∃ opts,
    head (GetProducts ToUpper db c).1
    = Some (EvFind (buildFilter ToUpper (q_param c) (q_status c)) opts)
    ∧ opt_Sort opts = byProductName
    ∧ opt_Limit opts = effectiveLimit c
    ∧ (1 <= opt_Limit opts <= maxInt)%Z
    ∧ (minInt <= opt_Skip opts <= maxInt)%Z.
Proof.
  exists (findOptions (effectivePage c) (effectiveLimit c)).
  split; [|split; [done|split; [done|split]]].
  - unfold GetProducts. destruct (Find db _ _) as [err|cursor]; [done|].
    by destruct (All cursor).
  - apply effectiveLimit_range.
  - apply wrapInt_range.
Qed.

(** X7. The filter has a $or clause exactly when param is not empty and
    a productList.productStatus clause exactly when status is not
    empty; it never has any other clause. *)
Theorem filter_clauses ToUpper param status_ key :
  is_Some (buildFilter ToUpper param status_ !! key)
  ↔ (key = "$or" ∧ param ≠ "")
    ∨ (key = "productList.productStatus" ∧ status_ ≠ "").
Proof.
  unfold buildFilter.
  destruct (decide (param ≠ "")) as [Hp|Hp];
    destruct (decide (status_ ≠ "")) as [Hs|Hs];
    rewrite ?lookup_insert_is_Some, ?lookup_empty;
    pose proof (@is_Some_None Value) as Hnone;
    destruct (decide (key = "$or")) as [Hor|Hor];
    destruct (decide (key = "productList.productStatus")) as [Hst|Hst];
    intuition congruence.
Qed.

(** ** More on the sanitizer *)

Lemma inClass_backslash : inClass "\" = true.
Proof. reflexivity. Qed.

Lemma inClass_not_backslash c : inClass c = false -> Ascii.eqb c "\" = false.
Proof.
  intros Hc. destruct (Ascii.eqb_spec c "\") as [->|]; [|done].
  by rewrite inClass_backslash in Hc.
Qed.

Lemma SanitizeString_cons c s :
  SanitizeString (String c s)
  = if inClass c then String "\" (String c (SanitizeString s))
    else String c (SanitizeString s).
Proof. unfold SanitizeString. simpl. by destruct (inClass c). Qed.

Lemma literalOf_SanitizeString input :
  literalOf (SanitizeString input) = Some input.
Proof.
  induction input as [|c s IH]; [done|].
  rewrite SanitizeString_cons. destruct (inClass c) eqn:Hc.
  - simpl. by rewrite Hc, IH.
  - simpl. by rewrite (inClass_not_backslash _ Hc), Hc, IH.
Qed.

Lemma literalOf_sanitized pattern :
  (∀ s, literalOf pattern = Some s -> pattern = SanitizeString s)
  ∧ (∀ c s, literalOf (String c pattern) = Some s ->
       String c pattern = SanitizeString s).
Proof.
  induction pattern as [|d rest [IHa IHb]].
  - split.
    + by intros s [= <-].
    + intros c s. simpl. destruct (Ascii.eqb c "\"); [done|].
      destruct (inClass c) eqn:Hc; [done|]. intros [= <-].
      by rewrite SanitizeString_cons, Hc.
  - split; [apply IHb|]. intros c s.
    change (literalOf (String c (String d rest)))
      with (if Ascii.eqb c "\"
            then (if inClass d then String d <$> literalOf rest else None)
            else if inClass c then None
                 else String c <$> literalOf (String d rest)).
    destruct (Ascii.eqb_spec c "\") as [->|Hc].
    + destruct (inClass d) eqn:Hd; [|done].
      destruct (literalOf rest) as [s'|] eqn:Hrest; [|done].
      intros [= <-]. rewrite SanitizeString_cons, Hd.
      by rewrite (IHa s' eq_refl).
    + destruct (inClass c) eqn:Hcc; [done|].
      destruct (literalOf (String d rest)) as [s'|] eqn:Hrest; [|done].
      intros [= <-]. rewrite SanitizeString_cons, Hcc.
      by rewrite (IHb _ _ Hrest).
Qed.

(** X8. The sanitized strings are exactly the literal patterns: a
    pattern made of plain characters and escaped characters of the
    class, with no character of the class left unescaped, spells a text
    if and only if it is the sanitized form of that text. *)
Theorem sanitized_is_literal pattern input :
  literalOf pattern = Some input ↔ pattern = SanitizeString input.
Proof.
  split.
  - apply literalOf_sanitized.
  - intros ->. apply literalOf_SanitizeString.
Qed.

(** X9. Distinct inputs have distinct sanitized forms. *)
Theorem SanitizeString_inj s1 s2 :
  SanitizeString s1 = SanitizeString s2 -> s1 = s2.
Proof.
  intros H. apply (f_equal literalOf) in H.
  rewrite !literalOf_SanitizeString in H. by injection H.
Qed.

Lemma SanitizeString_inj_witness : "a" +:+ ".b" = "a.b".
Proof. apply SanitizeString_inj. reflexivity. Defined.

Lemma metaCount_le s : metaCount s <= String.length s.
Proof.
  induction s as [|c s IH]; [done|]. simpl. destruct (inClass c); lia.
Qed.

Lemma length_SanitizeString input :
  String.length (SanitizeString input) = String.length input + metaCount input.
Proof.
  induction input as [|c s IH]; [done|].
  rewrite SanitizeString_cons. simpl metaCount.
  destruct (inClass c); simpl; rewrite IH; lia.
Qed.

(** X10. Sanitizing lengthens a string by one byte per character of the
    class it contains, so to at most twice its length. *)
Theorem SanitizeString_length input :
  String.length (SanitizeString input) = String.length input + metaCount input
  ∧ String.length (SanitizeString input) <= 2 * String.length input.
Proof.
  pose proof (length_SanitizeString input) as Hlen.
  pose proof (metaCount_le input). split; lia.
Qed.

(** X11. Sanitizing a concatenation is concatenating the sanitized
    parts. *)
Theorem SanitizeString_app s1 s2 :
  SanitizeString (s1 +:+ s2) = SanitizeString s1 +:+ SanitizeString s2.
Proof.
  induction s1 as [|c s IH]; [done|].
  change (String c s +:+ s2) with (String c (s +:+ s2)).
  rewrite !SanitizeString_cons, IH. by destruct (inClass c).
Qed.

Lemma metaCount_SanitizeString s :
  metaCount (SanitizeString s) = 2 * metaCount s.
Proof.
  induction s as [|c s IH]; [done|].
  rewrite SanitizeString_cons. simpl metaCount.
  destruct (inClass c) eqn:Hc; simpl; rewrite ?Hc, IH; lia.
Qed.

Lemma SanitizeString_no_meta s : metaCount s = 0 -> SanitizeString s = s.
Proof.
  induction s as [|c s IH]; [done|]. simpl metaCount.
  rewrite SanitizeString_cons. destruct (inClass c); [done|].
  intros H. by rewrite IH.
Qed.

(** X12. Sanitizing is not idempotent: sanitizing a sanitized string
    gives it back only when the input had no character of the class;
    otherwise the backslashes are escaped again. *)
Theorem SanitizeString_twice input :
  SanitizeString (SanitizeString input) = SanitizeString input
  ↔ metaCount input = 0.
Proof.
  split.
  - intros H. apply (f_equal String.length) in H.
    rewrite length_SanitizeString, metaCount_SanitizeString in H. lia.
  - intros H. by rewrite !(SanitizeString_no_meta _ H).
Qed.

(** X13. The patterns the handler puts in the filter are literal: a
    non-empty param gives a $or clause whose pattern is not empty and
    spells param, a non-empty status a status clause whose pattern
    spells the upper-cased status. *)
Theorem filter_patterns_literal ToUpper param status_ :
  (param ≠ "" ->
   ∃ pattern,
     buildFilter ToUpper param status_ !! "$or" = Some (orClauses pattern)
     ∧ pattern ≠ "" ∧ literalOf pattern = Some param)
  ∧ (status_ ≠ "" ->
     ∃ pattern,
       buildFilter ToUpper param status_ !! "productList.productStatus"
       = Some (regexMatch pattern)
       ∧ literalOf pattern = Some (ToUpper status_)).
Proof.
  split.
  - intros Hp. exists (SanitizeString param). split_and!.
    + by apply buildFilter_param.
    + intros He. apply Hp. apply (f_equal literalOf) in He.
      rewrite literalOf_SanitizeString in He. by injection He.
    + apply literalOf_SanitizeString.
  - intros Hs. exists (SanitizeString (ToUpper status_)). split.
    + by apply buildFilter_status.
    + apply literalOf_SanitizeString.
Qed.

Lemma filter_patterns_literal_witness :
  ∃ pattern,
    buildFilter Sample.upper "a.b" "" !! "$or" = Some (orClauses pattern)
    ∧ literalOf pattern = Some "a.b".
Proof.
  destruct (filter_patterns_literal Sample.upper "a.b" "") as [Hor _].
  destruct Hor as (pattern & Hclause & _ & Hlit); [done|].
  exists pattern. split; assumption.
Defined.

(** ** Pages against the modelled store *)

Lemma storeCollection_page clause sortBy negativeSkip stored filter page limit :
  (1 <= page <= maxInt)%Z -> (1 <= limit)%Z ->
  ((page - 1) * limit <= maxInt)%Z ->
  Find (storeCollection clause sortBy negativeSkip stored) filter
       (findOptions page limit)
  = inr {| All := inr (take (Z.to_nat limit)
                         (drop (Z.to_nat ((page - 1) * limit))
                            (sortBy byProductName
                               (List.filter (matchesFilter clause filter)
                                  stored)))) |}.
Proof.
  intros Hp Hl Hfit. rewrite findOptions_exact by done.
  unfold storeCollection. simpl.
  destruct (Z.ltb_spec ((page - 1) * limit) 0); [nia | done].
Qed.

(** X14. Against the modelled store, successive pages are contiguous:
    when the offsets fit the int, the groups of page p followed by
    those of page p+1 are the 2*l groups that follow the first (p-1)*l
    of the sorted matches, none repeated and none left out. *)
Theorem pages_are_contiguous clause sortBy negativeSkip stored filter p l :
  (1 <= p)%Z -> (p + 1 <= maxInt)%Z -> (1 <= l)%Z -> (p * l <= maxInt)%Z ->
  let db := storeCollection clause sortBy negativeSkip stored in
  found db filter (findOptions p l) ++ found db filter (findOptions (p + 1) l)
  = take (Z.to_nat (2 * l))
      (drop (Z.to_nat ((p - 1) * l))
         (sortBy byProductName
            (List.filter (matchesFilter clause filter) stored))).
Proof.
  intros Hp Hp1 Hl Hfit db. unfold found, db.
  rewrite !storeCollection_page by (try done; nia). simpl.
  replace (p + 1 - 1)%Z with p by lia.
  replace (Z.to_nat (p * l)) with (Z.to_nat ((p - 1) * l) + Z.to_nat l) by nia.
  replace (Z.to_nat (2 * l)) with (Z.to_nat l + Z.to_nat l) by lia.
  by rewrite <- drop_drop, take_take_drop.
Qed.

Lemma pages_are_contiguous_witness :
  found (Sample.store [Sample.group; Sample.emptyList; Sample.noList]) ∅
    (findOptions 1 1)
  ++ found (Sample.store [Sample.group; Sample.emptyList; Sample.noList]) ∅
       (findOptions 2 1)
  = [Sample.group; Sample.emptyList].
Proof.
  assert (H1 : (1 <= 1)%Z) by lia.
  assert (H2 : (1 + 1 <= maxInt)%Z) by (vm_compute; discriminate).
  assert (H3 : (1 * 1 <= maxInt)%Z) by (vm_compute; discriminate).
  exact (pages_are_contiguous (fun _ _ _ => true) (fun _ records => records)
           "skip must be non-negative"
           [Sample.group; Sample.emptyList; Sample.noList] ∅ 1 1 H1 H2 H1 H3).
Defined.

(** X15. Against the modelled store, a page that lies past the last
    match is not an error: the handler answers 200 with no products. *)
Theorem page_past_the_end ToUpper clause sortBy negativeSkip stored c :
  let p := effectivePage c in
  let l := effectiveLimit c in
  ((p - 1) * l <= maxInt)%Z ->
  (Z.of_nat
     (length
        (sortBy byProductName
           (List.filter
              (matchesFilter clause
                 (buildFilter ToUpper (q_param c) (q_status c)))
              stored)))
   <= (p - 1) * l)%Z ->
  (GetProducts ToUpper (storeCollection clause sortBy negativeSkip stored) c).2
  = Ret {| status := 200; body := JSON {| Data := nil_slice |} |}.
Proof.
  intros p l Hfit Hpast.
  pose proof (effectivePage_range c) as Hp.
  pose proof (effectiveLimit_range c) as Hl.
  unfold GetProducts. fold p l.
  rewrite storeCollection_page by (try done; lia). simpl.
  rewrite drop_ge by lia. by rewrite take_nil.
Qed.

Lemma page_past_the_end_witness :
  (GetProducts Sample.upper (Sample.store [Sample.group; Sample.emptyList])
     (Sample.request "3" "1")).2
  = Ret {| status := 200; body := JSON {| Data := nil_slice |} |}.
Proof.
  apply (page_past_the_end Sample.upper (fun _ _ _ => true)
           (fun _ records => records) "skip must be non-negative"
           [Sample.group; Sample.emptyList] (Sample.request "3" "1")).
  - vm_compute. discriminate.
  - vm_compute. discriminate.
Defined.

(** * Brokers and data in the response *)

Lemma allProducts_member results result productList productMap :
  result ∈ results ->
  asArr (result !! "productList") = Some productList ->
  VDoc productMap ∈ productList ->
  productOf result productMap ∈ allProducts results.
Proof.
  intros Hr Hl Hm. unfold allProducts. apply list_elem_of_bind.
  exists result. split; [|done]. unfold groupProducts. rewrite Hl.
  apply list_elem_of_fmap. exists productMap. split; [done|].
  by apply elem_of_documents.
Qed.

Lemma mkProduct_productList_field result productList productMap brokers :
  mkProduct (<["productList" := productList]> result) productMap brokers
  = mkProduct result productMap brokers.
Proof.
  unfold mkProduct, getStringField. simpl asDoc.
  rewrite !lookup_insert_ne by done. reflexivity.
Qed.

Lemma itemStep_productList_field result productList products item :
  itemStep (<["productList" := productList]> result) products item
  = itemStep result products item.
Proof.
  unfold itemStep. destruct (asDoc (Some item)); [|done].
  by rewrite mkProduct_productList_field.
Qed.

Lemma itemStep_cleanEntry result products item :
  itemStep result products (cleanEntry item) = itemStep result products item.
Proof.
  destruct item as [| productMap | | | |]; try done. simpl cleanEntry.
  destruct (asArr (productMap !! "brokers")) as [brokersData|] eqn:Harr; [|done].
  rewrite !itemStep_document, mkProduct_brokers_field.
  rewrite (collectBrokers_array _ _ Harr).
  rewrite (collectBrokers_array _ (VDoc <$> documents brokersData)).
  - by rewrite documents_VDoc.
  - by rewrite lookup_insert_eq.
Qed.

Lemma rangeLoop_fmap {A S} (body body' : S -> A -> outcome S) (f : A -> A) l s :
  (∀ s0 x, body' s0 (f x) = body s0 x) ->
  rangeLoop body' (f <$> l) s = rangeLoop body l s.
Proof.
  intros Hbody. revert s. induction l as [|x l IH]; intros s; [done|].
  rewrite fmap_cons, !rangeLoop_cons, Hbody.
  destruct (body s x) as [s1|]; [apply IH | done].
Qed.

Lemma resultStep_cleanResult products result :
  resultStep products (cleanResult result) = resultStep products result.
Proof.
  unfold cleanResult, resultStep.
  destruct (asArr (result !! "productList")) as [productList|] eqn:Hl;
    [|by rewrite Hl].
  rewrite lookup_insert_eq. simpl asArr. apply rangeLoop_fmap.
  intros s0 x. by rewrite itemStep_productList_field, itemStep_cleanEntry.
Qed.

Lemma flatten_cleanResult results :
  flatten (cleanResult <$> results) = flatten results.
Proof.
  unfold flatten. apply rangeLoop_fmap. intros s0 x.
  apply resultStep_cleanResult.
Qed.

(** C6. For an entry of a matched group whose brokers field is an array,
    every response of the handler is the 200 document and carries the
    product of that entry, whose brokers are exactly the well-formed
    (document) members of the array, in their order; each malformed
    member is left out on its own.  The malformed members do not make
    the request fail: the handler answers a result set exactly as it
    answers the same result set without any malformed broker, and it
    responds exactly when the records have the nested documents the
    products are built from, whatever their brokers. *)
Theorem malformed_brokers_dropped ToUpper db c results result productList
    productMap brokersData :
  decodes ToUpper db c results ->
  result ∈ results ->
  asArr (result !! "productList") = Some productList ->
  VDoc productMap ∈ productList ->
  asArr (productMap !! "brokers") = Some brokersData ->
  collectBrokers productMap = non_nil (mkBroker <$> documents brokersData)
  ∧ (∀ resp, (GetProducts ToUpper db c).2 = Ret resp ->
       ∃ v p,
         resp = {| status := 200; body := JSON v |}
         ∧ p ∈ elems (Data v)
         ∧ p = productOf result productMap
         ∧ p_Brokers p = non_nil (mkBroker <$> documents brokersData))
  ∧ (∀ db', decodes ToUpper db' c (cleanResult <$> results) ->
       (GetProducts ToUpper db' c).2 = (GetProducts ToUpper db c).2)
  ∧ ((∃ resp, (GetProducts ToUpper db c).2 = Ret resp)
     ↔ Forall resultShaped results).
Proof.
  intros Hdec Hr Hl Hm Harr.
  pose proof (collectBrokers_array _ _ Harr) as Hcollect.
  rewrite (GetProducts_decoded _ _ _ _ Hdec). split_and!.
  - done.
  - intros resp. destruct (flatten results) as [products|] eqn:Hfl; [|done].
    simpl. intros [= <-]. eexists _, (productOf result productMap).
    split_and!; [reflexivity | | done | done].
    simpl. rewrite (flatten_exact _ _ Hfl), elems_sliceOf.
    by eapply allProducts_member.
  - intros db' Hdec'. rewrite (GetProducts_decoded _ _ _ _ Hdec').
    by rewrite flatten_cleanResult.
  - rewrite <- flatten_completes. split.
    + intros [resp Hresp].
      destruct (flatten results) as [products|]; [eauto | done].
    + intros [products ->]. simpl. eauto.
Qed.

Lemma malformed_brokers_dropped_witness :
  ∃ v p,
    (GetProducts Sample.upper (Sample.yielding [Sample.noList; Sample.group])
       (Sample.request "" "")).2
    = Ret {| status := 200; body := JSON v |}
    ∧ p ∈ elems (Data v)
    ∧ p_ID p = "p1"
    ∧ p_Brokers p
      = non_nil [ {| b_Key := "b1"; b_ChannelName := "web" |};
                  {| b_Key := "b2"; b_ChannelName := "web" |} ].
Proof.
  assert (Hdec : decodes Sample.upper
                   (Sample.yielding [Sample.noList; Sample.group])
                   (Sample.request "" "") [Sample.noList; Sample.group]).
  { eexists. split; reflexivity. }
  assert (Hr : Sample.group ∈ [Sample.noList; Sample.group]).
  { rewrite !elem_of_cons. right. by left. }
  assert (Hm : VDoc (Sample.entry "p1")
               ∈ [VDoc (Sample.entry "p1"); VInt 3; VDoc (Sample.entry "p2")]).
  { rewrite !elem_of_cons. by left. }
  destruct (malformed_brokers_dropped Sample.upper _ _ _ _ _ _
              Sample.mixedBrokers Hdec Hr eq_refl Hm eq_refl)
    as (_ & Hresp & _ & _).
  destruct (Hresp _ eq_refl) as (v & p & Heq & Hp & Hprod & Hbrokers).
  exists v, p. split_and!.
  - rewrite <- Heq. reflexivity.
  - exact Hp.
  - rewrite Hprod. reflexivity.
  - rewrite Hbrokers. reflexivity.
Defined.

(** C9. A failure that is not one of the whole query does reach the
    caller: for a group with a well-formed entry and no productType
    document the find and the decoding both succeed, and the handler
    panics instead of sending a response. *)
Theorem per_record_failure_surfaces :
  queryError Sample.upper (Sample.yielding [Sample.noType])
    (Sample.request "" "") = None
  ∧ decodes Sample.upper (Sample.yielding [Sample.noType])
      (Sample.request "" "") [Sample.noType]
  ∧ (GetProducts Sample.upper (Sample.yielding [Sample.noType])
       (Sample.request "" "")).2 = Panic.
Proof.
  split_and!.
  - reflexivity.
  - eexists. split; reflexivity.
  - vm_compute. reflexivity.
Qed.

(** C10. In every response to a decoded result set, when zero products
    were flattened the data field is the nil slice, which encodes as
    JSON null and not as an empty array; the brokers of every product
    in the data are a non-nil slice, which encodes as an array, and the
    product of an entry that has no brokers field is in the data with
    the empty non-nil slice, encoded as the empty array. *)
Theorem nil_data_but_empty_brokers ToUpper db c results resp :
  decodes ToUpper db c results ->
  (GetProducts ToUpper db c).2 = Ret resp ->
  ∃ v,
    resp = {| status := 200; body := JSON v |}
    ∧ (len (Data v) = 0 ->
       Data v = nil_slice ∧ marshalResponse v = JObj [("data", JNull)])
    ∧ (∀ p, p ∈ elems (Data v) ->
         ∃ bl, p_Brokers p = non_nil bl
               ∧ member "brokers" (marshalProduct p)
                 = Some (JArr (marshalBroker <$> bl)))
    ∧ (∀ result productList productMap,
         result ∈ results ->
         asArr (result !! "productList") = Some productList ->
         VDoc productMap ∈ productList ->
         productMap !! "brokers" = None ->
         ∃ p, p ∈ elems (Data v)
              ∧ p = productOf result productMap
              ∧ p_Brokers p = non_nil []
              ∧ member "brokers" (marshalProduct p) = Some (JArr [])).
Proof.
  intros Hdec. rewrite (GetProducts_decoded _ _ _ _ Hdec).
  destruct (flatten results) as [products|] eqn:Hfl; [|done].
  simpl. intros [= <-]. exists {| Data := products |}.
  split; [done|]. simpl. split_and!.
  - intros Hlen.
    assert (products = nil_slice ∨ elems products ≠ []) as [->|Hne].
    { apply (flatten_invariant (fun s => s = nil_slice ∨ elems s ≠ []) results);
        [| by left | done].
      intros. eapply itemStep_nil_or_filled; eauto. }
    + done.
    + unfold len in Hlen. by destruct (elems products).
  - intros p Hp.
    assert (Hall : Forall (fun p => ∃ bl, p_Brokers p = non_nil bl)
                     (elems products)).
    { apply (flatten_invariant
               (fun s => Forall (fun p => ∃ bl, p_Brokers p = non_nil bl)
                           (elems s)) results); [| constructor | done].
      intros. eapply itemStep_brokers; eauto. }
    rewrite Forall_forall in Hall. destruct (Hall p Hp) as [bl Hbl].
    exists bl. split; [done|]. unfold marshalProduct. rewrite Hbl. reflexivity.
  - intros result productList productMap Hr Hl Hm Hnone.
    exists (productOf result productMap).
    assert (Hb : collectBrokers productMap = non_nil []).
    { unfold collectBrokers. by rewrite Hnone. }
    split_and!; [| done | done |].
    + rewrite (flatten_exact _ _ Hfl), elems_sliceOf.
      by eapply allProducts_member.
    + unfold marshalProduct, productOf. simpl p_Brokers. rewrite Hb.
      reflexivity.
Qed.

Lemma nil_data_but_empty_brokers_witness :
  (∃ v,
     (GetProducts Sample.upper (Sample.yielding [Sample.noList])
        (Sample.request "" "")).2
     = Ret {| status := 200; body := JSON v |}
     ∧ Data v = nil_slice
     ∧ marshalResponse v = JObj [("data", JNull)])
  ∧ (∃ v p,
       (GetProducts Sample.upper (Sample.yielding [Sample.bareGroup])
          (Sample.request "" "")).2
       = Ret {| status := 200; body := JSON v |}
       ∧ p ∈ elems (Data v)
       ∧ p_ID p = "p3"
       ∧ p_Brokers p = non_nil []
       ∧ member "brokers" (marshalProduct p) = Some (JArr [])).
Proof.
  split.
  - assert (Hdec : decodes Sample.upper (Sample.yielding [Sample.noList])
                     (Sample.request "" "") [Sample.noList]).
    { eexists. split; reflexivity. }
    destruct (nil_data_but_empty_brokers _ _ _ _ _ Hdec eq_refl)
      as (v & Heq & Hnil & _ & _).
    exists v. injection Heq as <-. destruct (Hnil eq_refl) as [Hdata Hjson].
    split_and!; [reflexivity | exact Hdata | exact Hjson].
  - assert (Hdec : decodes Sample.upper (Sample.yielding [Sample.bareGroup])
                     (Sample.request "" "") [Sample.bareGroup]).
    { eexists. split; reflexivity. }
    destruct (nil_data_but_empty_brokers _ _ _ _ _ Hdec eq_refl)
      as (v & Heq & _ & _ & Hbare).
    assert (Hr : Sample.bareGroup ∈ [Sample.bareGroup]).
    { rewrite elem_of_cons. by left. }
    assert (Hm : VDoc Sample.bare ∈ [VDoc Sample.bare]).
    { rewrite elem_of_cons. by left. }
    destruct (Hbare Sample.bareGroup _ Sample.bare Hr eq_refl Hm eq_refl)
      as (p & Hp & Hprod & Hbrokers & Hjson).
    exists v, p. split_and!.
    + rewrite <- Heq. reflexivity.
    + exact Hp.
    + rewrite Hprod. reflexivity.
    + exact Hbrokers.
    + exact Hjson.
Defined.
